(** * Japanese MUD: the procedural world core of [run_game.py]

    A shallow embedding of [SimpleGameEngine] (run_game.py), of the
    [AIClient] it calls (app/utils/ai_client.py) and of the two image
    functions of [ImageClient] (app/utils/image_client.py), followed by
    the properties of the world-generation and caching core.

    Modelling conventions.
    - Python [str] is [string]: the UTF-8 bytes of the text (a lone
      surrogate, which a JSON escape can produce, as its three bytes).
      [str.lower()], [str.split()] and [str.strip()] work on the code
      points, with the tables of the Unicode Character Database; [in] on
      two strings compares bytes, which for UTF-8 is the same as comparing
      code points. [int] is [Z], and [str(n)] is stdpp's [pretty].
    - A [dict] used as a map is a [gmap string _]; a [dict] used as a
      struct is a record whose fields are [option]s where the code reads
      the key with [.get(key, default)] or tests [key in d].
    - A reply of the text service, once parsed, is a JSON object (the
      requests ask for [response_format = json_object]). A key of it may
      be missing, and the value under a key may be any JSON value: where
      the code expects text the value is a [pytext], which is a string or
      something else (null, a number, a list, ...), of which the model
      keeps the type name, the text [str()] gives and the truthiness.
    - The engine object is the record [State]; its methods run in the
      monad [M], which threads the state, stops at a raised exception and
      keeps a trace of the calls made to [AIClient] methods and of the
      catalogue entries the engine reports to its logger.
    - What the outside world answers during one command (the random draws
      and the replies of the text-generation service) is the record
      [Oracle]; every theorem quantifies over it. *)

From Stdlib Require Import ZArith NArith Ascii.
From stdpp Require Import gmap strings pretty list.

Local Open Scope Z_scope.

(** ** Python string operations *)
Module Py.

(** The double quote and the newline, for the f-strings that contain
    them. *)
Definition dq : string := String (ascii_of_nat 34) "".
Definition nl : string := String (ascii_of_nat 10) "".

(** *** Code points

    The code points of a string, and back. A byte that is not part of a
    well-formed sequence (no Python [str] encodes to one) is kept apart
    from the code points, as [stray], and is written back as it
    was. *)
Definition stray (b : N) : N := (1114112 + b)%N.

Definition is_continuation (b : N) : bool := ((128 <=? b) && (b <? 192))%N.

(** The number of continuation bytes a lead byte announces, and the
    bits it carries. *)
Definition lead (b : N) : option (nat * N) :=
  (if b <? 192 then None
   else if b <? 224 then Some (1%nat, b - 192)
   else if b <? 240 then Some (2%nat, b - 224)
   else if b <? 248 then Some (3%nat, b - 240)
   else None)%N.

(** A sequence of [len] bytes is well formed when it is the shortest
    one for its code point, and the code point is at most U+10FFFF. *)
Definition well_formed (len : nat) (p : N) : bool :=
  (match len with
   | 2%nat => 128 <=? p
   | 3%nat => 2048 <=? p
   | 4%nat => (65536 <=? p) && (p <? 1114112)
   | _ => false
   end)%N.

(** [more] continuation bytes are still expected for the sequence
    whose bytes so far are [seen] and whose bits so far are [acc]. *)
Fixpoint points_go (more : nat) (acc : N) (seen : list N) (s : string)
    : list N :=
  match s with
  | EmptyString => stray <$> seen
  | String c r =>
      let b := N_of_ascii c in
      if match more with O => false | S _ => true end && is_continuation b
      then
        let acc := (acc * 64 + (b - 128))%N in
        match more with
        | 1%nat =>
            (if well_formed (S (length seen)) acc then [acc]
             else stray <$> (seen ++ [b]))
            ++ points_go 0 0%N [] r
        | _ => points_go (pred more) acc (seen ++ [b]) r
        end
      else
        (stray <$> seen)
        ++ (if (b <? 128)%N then b :: points_go 0 0%N [] r
            else match lead b with
                 | Some (n, bits) => points_go n bits [b] r
                 | None => stray b :: points_go 0 0%N [] r
                 end)
  end.

Definition code_points (s : string) : list N := points_go 0 0%N [] s.

Definition byte (b : N) : ascii := ascii_of_N b.

Definition utf8_point (p : N) (rest : string) : string :=
  (if p <? 128 then String (byte p) rest
   else if p <? 2048 then
     String (byte (192 + p / 64)) (String (byte (128 + p mod 64)) rest)
   else if p <? 65536 then
     String (byte (224 + p / 4096))
       (String (byte (128 + (p / 64) mod 64))
          (String (byte (128 + p mod 64)) rest))
   else if p <? 1114112 then
     String (byte (240 + p / 262144))
       (String (byte (128 + (p / 4096) mod 64))
          (String (byte (128 + (p / 64) mod 64))
             (String (byte (128 + p mod 64)) rest)))
   else String (byte (p - 1114112)) rest)%N.

Definition utf8 (points : list N) : string := foldr utf8_point "" points.

(** *** Tables of the Unicode Character Database, version 14.0.0

    The three tables [str.lower()] reads and the one [str.isspace()]
    reads, as CPython 3.11 has them. A row of code points [(first, last)]
    is a closed interval. *)

(** The code points for which [str.isspace()] holds. *)
Definition isspace_table : list (N * N) :=
  [(9, 13); (28, 32); (133, 133); (160, 160); (5760, 5760); (8192, 8202);
   (8232, 8233); (8239, 8239); (8287, 8287); (12288, 12288)]%N.

(** The simple lower-case mappings. A row [(first, last, step, to)] maps
    [first] to [to], [first + step] to [to + step], and so on up to
    [last]. *)
Definition lower_table : list (N * N * N * N) :=
  [(65, 90, 1, 97); (192, 214, 1, 224); (216, 222, 1, 248); (256, 302, 2, 257);
   (306, 310, 2, 307); (313, 327, 2, 314); (330, 374, 2, 331); (376, 376, 1, 255);
   (377, 381, 2, 378); (385, 385, 1, 595); (386, 388, 2, 387); (390, 390, 1, 596);
   (391, 391, 1, 392); (393, 394, 1, 598); (395, 395, 1, 396); (398, 398, 1, 477);
   (399, 399, 1, 601); (400, 400, 1, 603); (401, 401, 1, 402); (403, 403, 1, 608);
   (404, 404, 1, 611); (406, 406, 1, 617); (407, 407, 1, 616); (408, 408, 1, 409);
   (412, 412, 1, 623); (413, 413, 1, 626); (415, 415, 1, 629); (416, 420, 2, 417);
   (422, 422, 1, 640); (423, 423, 1, 424); (425, 425, 1, 643); (428, 428, 1, 429);
   (430, 430, 1, 648); (431, 431, 1, 432); (433, 434, 1, 650); (435, 437, 2, 436);
   (439, 439, 1, 658); (440, 440, 1, 441); (444, 444, 1, 445); (452, 452, 1, 454);
   (453, 453, 1, 454); (455, 455, 1, 457); (456, 456, 1, 457); (458, 458, 1, 460);
   (459, 475, 2, 460); (478, 494, 2, 479); (497, 497, 1, 499); (498, 500, 2, 499);
   (502, 502, 1, 405); (503, 503, 1, 447); (504, 542, 2, 505); (544, 544, 1, 414);
   (546, 562, 2, 547); (570, 570, 1, 11365); (571, 571, 1, 572); (573, 573, 1, 410);
   (574, 574, 1, 11366); (577, 577, 1, 578); (579, 579, 1, 384); (580, 580, 1, 649);
   (581, 581, 1, 652); (582, 590, 2, 583); (880, 882, 2, 881); (886, 886, 1, 887);
   (895, 895, 1, 1011); (902, 902, 1, 940); (904, 906, 1, 941); (908, 908, 1, 972);
   (910, 911, 1, 973); (913, 929, 1, 945); (932, 939, 1, 964); (975, 975, 1, 983);
   (984, 1006, 2, 985); (1012, 1012, 1, 952); (1015, 1015, 1, 1016); (1017, 1017, 1, 1010);
   (1018, 1018, 1, 1019); (1021, 1023, 1, 891); (1024, 1039, 1, 1104); (1040, 1071, 1, 1072);
   (1120, 1152, 2, 1121); (1162, 1214, 2, 1163); (1216, 1216, 1, 1231); (1217, 1229, 2, 1218);
   (1232, 1326, 2, 1233); (1329, 1366, 1, 1377); (4256, 4293, 1, 11520); (4295, 4295, 1, 11559);
   (4301, 4301, 1, 11565); (5024, 5103, 1, 43888); (5104, 5109, 1, 5112); (7312, 7354, 1, 4304);
   (7357, 7359, 1, 4349); (7680, 7828, 2, 7681); (7838, 7838, 1, 223); (7840, 7934, 2, 7841);
   (7944, 7951, 1, 7936); (7960, 7965, 1, 7952); (7976, 7983, 1, 7968); (7992, 7999, 1, 7984);
   (8008, 8013, 1, 8000); (8025, 8031, 2, 8017); (8040, 8047, 1, 8032); (8072, 8079, 1, 8064);
   (8088, 8095, 1, 8080); (8104, 8111, 1, 8096); (8120, 8121, 1, 8112); (8122, 8123, 1, 8048);
   (8124, 8124, 1, 8115); (8136, 8139, 1, 8050); (8140, 8140, 1, 8131); (8152, 8153, 1, 8144);
   (8154, 8155, 1, 8054); (8168, 8169, 1, 8160); (8170, 8171, 1, 8058); (8172, 8172, 1, 8165);
   (8184, 8185, 1, 8056); (8186, 8187, 1, 8060); (8188, 8188, 1, 8179); (8486, 8486, 1, 969);
   (8490, 8490, 1, 107); (8491, 8491, 1, 229); (8498, 8498, 1, 8526); (8544, 8559, 1, 8560);
   (8579, 8579, 1, 8580); (9398, 9423, 1, 9424); (11264, 11311, 1, 11312); (11360, 11360, 1, 11361);
   (11362, 11362, 1, 619); (11363, 11363, 1, 7549); (11364, 11364, 1, 637); (11367, 11371, 2, 11368);
   (11373, 11373, 1, 593); (11374, 11374, 1, 625); (11375, 11375, 1, 592); (11376, 11376, 1, 594);
   (11378, 11378, 1, 11379); (11381, 11381, 1, 11382); (11390, 11391, 1, 575); (11392, 11490, 2, 11393);
   (11499, 11501, 2, 11500); (11506, 11506, 1, 11507); (42560, 42604, 2, 42561); (42624, 42650, 2, 42625);
   (42786, 42798, 2, 42787); (42802, 42862, 2, 42803); (42873, 42875, 2, 42874); (42877, 42877, 1, 7545);
   (42878, 42886, 2, 42879); (42891, 42891, 1, 42892); (42893, 42893, 1, 613); (42896, 42898, 2, 42897);
   (42902, 42920, 2, 42903); (42922, 42922, 1, 614); (42923, 42923, 1, 604); (42924, 42924, 1, 609);
   (42925, 42925, 1, 620); (42926, 42926, 1, 618); (42928, 42928, 1, 670); (42929, 42929, 1, 647);
   (42930, 42930, 1, 669); (42931, 42931, 1, 43859); (42932, 42946, 2, 42933); (42948, 42948, 1, 42900);
   (42949, 42949, 1, 642); (42950, 42950, 1, 7566); (42951, 42953, 2, 42952); (42960, 42960, 1, 42961);
   (42966, 42968, 2, 42967); (42997, 42997, 1, 42998); (65313, 65338, 1, 65345); (66560, 66599, 1, 66600);
   (66736, 66771, 1, 66776); (66928, 66938, 1, 66967); (66940, 66954, 1, 66979); (66956, 66962, 1, 66995);
   (66964, 66965, 1, 67003); (68736, 68786, 1, 68800); (71840, 71871, 1, 71872); (93760, 93791, 1, 93792);
   (125184, 125217, 1, 125218)]%N.

(** The property Cased. *)
Definition cased_table : list (N * N) :=
  [(65, 90); (97, 122); (170, 170); (181, 181); (186, 186); (192, 214);
   (216, 246); (248, 442); (444, 447); (452, 659); (661, 696); (704, 705);
   (736, 740); (837, 837); (880, 883); (886, 887); (890, 893); (895, 895);
   (902, 902); (904, 906); (908, 908); (910, 929); (931, 1013); (1015, 1153);
   (1162, 1327); (1329, 1366); (1376, 1416); (4256, 4293); (4295, 4295); (4301, 4301);
   (4304, 4346); (4349, 4351); (5024, 5109); (5112, 5117); (7296, 7304); (7312, 7354);
   (7357, 7359); (7424, 7615); (7680, 7957); (7960, 7965); (7968, 8005); (8008, 8013);
   (8016, 8023); (8025, 8025); (8027, 8027); (8029, 8029); (8031, 8061); (8064, 8116);
   (8118, 8124); (8126, 8126); (8130, 8132); (8134, 8140); (8144, 8147); (8150, 8155);
   (8160, 8172); (8178, 8180); (8182, 8188); (8305, 8305); (8319, 8319); (8336, 8348);
   (8450, 8450); (8455, 8455); (8458, 8467); (8469, 8469); (8473, 8477); (8484, 8484);
   (8486, 8486); (8488, 8488); (8490, 8493); (8495, 8500); (8505, 8505); (8508, 8511);
   (8517, 8521); (8526, 8526); (8544, 8575); (8579, 8580); (9398, 9449); (11264, 11492);
   (11499, 11502); (11506, 11507); (11520, 11557); (11559, 11559); (11565, 11565); (42560, 42605);
   (42624, 42653); (42786, 42887); (42891, 42894); (42896, 42954); (42960, 42961); (42963, 42963);
   (42965, 42969); (42997, 42998); (43000, 43002); (43824, 43866); (43868, 43880); (43888, 43967);
   (64256, 64262); (64275, 64279); (65313, 65338); (65345, 65370); (66560, 66639); (66736, 66771);
   (66776, 66811); (66928, 66938); (66940, 66954); (66956, 66962); (66964, 66965); (66967, 66977);
   (66979, 66993); (66995, 67001); (67003, 67004); (67456, 67456); (67459, 67461); (67463, 67504);
   (67506, 67514); (68736, 68786); (68800, 68850); (71840, 71903); (93760, 93823); (119808, 119892);
   (119894, 119964); (119966, 119967); (119970, 119970); (119973, 119974); (119977, 119980); (119982, 119993);
   (119995, 119995); (119997, 120003); (120005, 120069); (120071, 120074); (120077, 120084); (120086, 120092);
   (120094, 120121); (120123, 120126); (120128, 120132); (120134, 120134); (120138, 120144); (120146, 120485);
   (120488, 120512); (120514, 120538); (120540, 120570); (120572, 120596); (120598, 120628); (120630, 120654);
   (120656, 120686); (120688, 120712); (120714, 120744); (120746, 120770); (120772, 120779); (122624, 122633);
   (122635, 122654); (125184, 125251); (127280, 127305); (127312, 127337); (127344, 127369)]%N.

(** The property Case_Ignorable. *)
Definition case_ignorable_table : list (N * N) :=
  [(39, 39); (46, 46); (58, 58); (94, 94); (96, 96); (168, 168);
   (173, 173); (175, 175); (180, 180); (183, 184); (688, 879); (884, 885);
   (890, 890); (900, 901); (903, 903); (1155, 1161); (1369, 1369); (1375, 1375);
   (1425, 1469); (1471, 1471); (1473, 1474); (1476, 1477); (1479, 1479); (1524, 1524);
   (1536, 1541); (1552, 1562); (1564, 1564); (1600, 1600); (1611, 1631); (1648, 1648);
   (1750, 1757); (1759, 1768); (1770, 1773); (1807, 1807); (1809, 1809); (1840, 1866);
   (1958, 1968); (2027, 2037); (2042, 2042); (2045, 2045); (2070, 2093); (2137, 2139);
   (2184, 2184); (2192, 2193); (2200, 2207); (2249, 2306); (2362, 2362); (2364, 2364);
   (2369, 2376); (2381, 2381); (2385, 2391); (2402, 2403); (2417, 2417); (2433, 2433);
   (2492, 2492); (2497, 2500); (2509, 2509); (2530, 2531); (2558, 2558); (2561, 2562);
   (2620, 2620); (2625, 2626); (2631, 2632); (2635, 2637); (2641, 2641); (2672, 2673);
   (2677, 2677); (2689, 2690); (2748, 2748); (2753, 2757); (2759, 2760); (2765, 2765);
   (2786, 2787); (2810, 2815); (2817, 2817); (2876, 2876); (2879, 2879); (2881, 2884);
   (2893, 2893); (2901, 2902); (2914, 2915); (2946, 2946); (3008, 3008); (3021, 3021);
   (3072, 3072); (3076, 3076); (3132, 3132); (3134, 3136); (3142, 3144); (3146, 3149);
   (3157, 3158); (3170, 3171); (3201, 3201); (3260, 3260); (3263, 3263); (3270, 3270);
   (3276, 3277); (3298, 3299); (3328, 3329); (3387, 3388); (3393, 3396); (3405, 3405);
   (3426, 3427); (3457, 3457); (3530, 3530); (3538, 3540); (3542, 3542); (3633, 3633);
   (3636, 3642); (3654, 3662); (3761, 3761); (3764, 3772); (3782, 3782); (3784, 3789);
   (3864, 3865); (3893, 3893); (3895, 3895); (3897, 3897); (3953, 3966); (3968, 3972);
   (3974, 3975); (3981, 3991); (3993, 4028); (4038, 4038); (4141, 4144); (4146, 4151);
   (4153, 4154); (4157, 4158); (4184, 4185); (4190, 4192); (4209, 4212); (4226, 4226);
   (4229, 4230); (4237, 4237); (4253, 4253); (4348, 4348); (4957, 4959); (5906, 5908);
   (5938, 5939); (5970, 5971); (6002, 6003); (6068, 6069); (6071, 6077); (6086, 6086);
   (6089, 6099); (6103, 6103); (6109, 6109); (6155, 6159); (6211, 6211); (6277, 6278);
   (6313, 6313); (6432, 6434); (6439, 6440); (6450, 6450); (6457, 6459); (6679, 6680);
   (6683, 6683); (6742, 6742); (6744, 6750); (6752, 6752); (6754, 6754); (6757, 6764);
   (6771, 6780); (6783, 6783); (6823, 6823); (6832, 6862); (6912, 6915); (6964, 6964);
   (6966, 6970); (6972, 6972); (6978, 6978); (7019, 7027); (7040, 7041); (7074, 7077);
   (7080, 7081); (7083, 7085); (7142, 7142); (7144, 7145); (7149, 7149); (7151, 7153);
   (7212, 7219); (7222, 7223); (7288, 7293); (7376, 7378); (7380, 7392); (7394, 7400);
   (7405, 7405); (7412, 7412); (7416, 7417); (7468, 7530); (7544, 7544); (7579, 7679);
   (8125, 8125); (8127, 8129); (8141, 8143); (8157, 8159); (8173, 8175); (8189, 8190);
   (8203, 8207); (8216, 8217); (8228, 8228); (8231, 8231); (8234, 8238); (8288, 8292);
   (8294, 8303); (8305, 8305); (8319, 8319); (8336, 8348); (8400, 8432); (11388, 11389);
   (11503, 11505); (11631, 11631); (11647, 11647); (11744, 11775); (11823, 11823); (12293, 12293);
   (12330, 12333); (12337, 12341); (12347, 12347); (12441, 12446); (12540, 12542); (40981, 40981);
   (42232, 42237); (42508, 42508); (42607, 42610); (42612, 42621); (42623, 42623); (42652, 42655);
   (42736, 42737); (42752, 42785); (42864, 42864); (42888, 42890); (42994, 42996); (43000, 43001);
   (43010, 43010); (43014, 43014); (43019, 43019); (43045, 43046); (43052, 43052); (43204, 43205);
   (43232, 43249); (43263, 43263); (43302, 43309); (43335, 43345); (43392, 43394); (43443, 43443);
   (43446, 43449); (43452, 43453); (43471, 43471); (43493, 43494); (43561, 43566); (43569, 43570);
   (43573, 43574); (43587, 43587); (43596, 43596); (43632, 43632); (43644, 43644); (43696, 43696);
   (43698, 43700); (43703, 43704); (43710, 43711); (43713, 43713); (43741, 43741); (43756, 43757);
   (43763, 43764); (43766, 43766); (43867, 43871); (43881, 43883); (44005, 44005); (44008, 44008);
   (44013, 44013); (64286, 64286); (64434, 64450); (65024, 65039); (65043, 65043); (65056, 65071);
   (65106, 65106); (65109, 65109); (65279, 65279); (65287, 65287); (65294, 65294); (65306, 65306);
   (65342, 65342); (65344, 65344); (65392, 65392); (65438, 65439); (65507, 65507); (65529, 65531);
   (66045, 66045); (66272, 66272); (66422, 66426); (67456, 67461); (67463, 67504); (67506, 67514);
   (68097, 68099); (68101, 68102); (68108, 68111); (68152, 68154); (68159, 68159); (68325, 68326);
   (68900, 68903); (69291, 69292); (69446, 69456); (69506, 69509); (69633, 69633); (69688, 69702);
   (69744, 69744); (69747, 69748); (69759, 69761); (69811, 69814); (69817, 69818); (69821, 69821);
   (69826, 69826); (69837, 69837); (69888, 69890); (69927, 69931); (69933, 69940); (70003, 70003);
   (70016, 70017); (70070, 70078); (70089, 70092); (70095, 70095); (70191, 70193); (70196, 70196);
   (70198, 70199); (70206, 70206); (70367, 70367); (70371, 70378); (70400, 70401); (70459, 70460);
   (70464, 70464); (70502, 70508); (70512, 70516); (70712, 70719); (70722, 70724); (70726, 70726);
   (70750, 70750); (70835, 70840); (70842, 70842); (70847, 70848); (70850, 70851); (71090, 71093);
   (71100, 71101); (71103, 71104); (71132, 71133); (71219, 71226); (71229, 71229); (71231, 71232);
   (71339, 71339); (71341, 71341); (71344, 71349); (71351, 71351); (71453, 71455); (71458, 71461);
   (71463, 71467); (71727, 71735); (71737, 71738); (71995, 71996); (71998, 71998); (72003, 72003);
   (72148, 72151); (72154, 72155); (72160, 72160); (72193, 72202); (72243, 72248); (72251, 72254);
   (72263, 72263); (72273, 72278); (72281, 72283); (72330, 72342); (72344, 72345); (72752, 72758);
   (72760, 72765); (72767, 72767); (72850, 72871); (72874, 72880); (72882, 72883); (72885, 72886);
   (73009, 73014); (73018, 73018); (73020, 73021); (73023, 73029); (73031, 73031); (73104, 73105);
   (73109, 73109); (73111, 73111); (73459, 73460); (78896, 78904); (92912, 92916); (92976, 92982);
   (92992, 92995); (94031, 94031); (94095, 94111); (94176, 94177); (94179, 94180); (110576, 110579);
   (110581, 110587); (110589, 110590); (113821, 113822); (113824, 113827); (118528, 118573); (118576, 118598);
   (119143, 119145); (119155, 119170); (119173, 119179); (119210, 119213); (119362, 119364); (121344, 121398);
   (121403, 121452); (121461, 121461); (121476, 121476); (121499, 121503); (121505, 121519); (122880, 122886);
   (122888, 122904); (122907, 122913); (122915, 122916); (122918, 122922); (123184, 123197); (123566, 123566);
   (123628, 123631); (125136, 125142); (125252, 125259); (127995, 127999); (917505, 917505); (917536, 917631);
   (917760, 917999)]%N.

(** *** [str.lower()], [str.split()], [str.strip()] *)

Definition in_table (table : list (N * N)) (p : N) : bool :=
  existsb (λ row : N * N, (row.1 <=? p) && (p <=? row.2))%N table.

Definition isspace : N → bool := in_table isspace_table.
Definition cased : N → bool := in_table cased_table.
Definition case_ignorable : N → bool := in_table case_ignorable_table.

Definition lower_row (p : N) (row : N * N * N * N) : bool :=
  let '(first, last, step, _) := row in
  ((first <=? p) && (p <=? last) && ((p - first) mod step =? 0))%N.

Definition lower_simple (p : N) : N :=
  match find (lower_row p) lower_table with
  | Some (first, _, _, to) => (to + (p - first))%N
  | None => p
  end.

(** The capital sigma U+03A3 becomes the final sigma U+03C2 when it ends
    a word: the code point before it, skipping the case-ignorable ones,
    is cased, and the code point after it, skipping the case-ignorable
    ones, is not ([before] is read backwards). *)
Fixpoint skip_ignorable (points : list N) : list N :=
  match points with
  | [] => []
  | p :: rest => if case_ignorable p then skip_ignorable rest else points
  end.

Definition final_sigma (before after : list N) : bool :=
  match skip_ignorable before with
  | p :: _ => cased p
  | [] => false
  end
  && match skip_ignorable after with
     | p :: _ => negb (cased p)
     | [] => true
     end.

(** The lower case of one code point in its context; U+0130 is the one
    code point whose lower case is two code points long. *)
Definition lower_point (before : list N) (p : N) (after : list N) : list N :=
  (if p =? 931 then [if final_sigma before after then 962 else 963]
   else if p =? 304 then [105; 775]
   else [lower_simple p])%N.

Fixpoint lower_go (before : list N) (points : list N) : list N :=
  match points with
  | [] => []
  | p :: after => lower_point before p after ++ lower_go (p :: before) after
  end.

(** [s.lower()] *)
Definition lower (s : string) : string := utf8 (lower_go [] (code_points s)).

(** [s.split()] without argument: the maximal runs of code points that
    are not white space, in order; never an empty word. [cur] is the
    word being read, reversed. *)
Fixpoint split_go (cur : list N) (points : list N) : list string :=
  match points with
  | [] => match cur with [] => [] | _ => [utf8 (rev cur)] end
  | p :: rest =>
      if isspace p
      then match cur with
           | [] => split_go [] rest
           | _ => utf8 (rev cur) :: split_go [] rest
           end
      else split_go (p :: cur) rest
  end.

Definition split (s : string) : list string := split_go [] (code_points s).

(** [s.strip()]: the string without its leading and trailing white
    space. *)
Fixpoint lstrip (points : list N) : list N :=
  match points with
  | [] => []
  | p :: rest => if isspace p then lstrip rest else points
  end.

Definition strip (s : string) : string :=
  utf8 (rev (lstrip (rev (lstrip (code_points s))))).

(** [sep.join(l)] on a list of strings. *)
Fixpoint join (sep : string) (l : list string) : string :=
  match l with
  | [] => ""
  | [x] => x
  | x :: r => x +:+ sep +:+ join sep r
  end.

(** [needle in hay] on strings: substring test. *)
Fixpoint contains (needle hay : string) : bool :=
  String.prefix needle hay
  || match hay with
     | EmptyString => false
     | String _ r => contains needle r
     end.

(** Truthiness of a string: [bool(s)]. *)
Definition truthy (s : string) : bool :=
  match s with EmptyString => false | _ => true end.

(** [key in d] for a key of a dict modelled as an optional field. *)
Definition present {A : Type} (o : option A) : bool :=
  match o with Some _ => true | None => false end.

(** [x in l] for a list of strings. *)
Definition mem (x : string) (l : list string) : bool :=
  bool_decide (x ∈ l).

(** Every character of the string is a decimal digit. *)
Definition is_digit (c : ascii) : bool :=
  let n := nat_of_ascii c in ((48 <=? n) && (n <=? 57))%nat.

Fixpoint all_digits (s : string) : bool :=
  match s with
  | EmptyString => true
  | String c r => is_digit c && all_digits r
  end.

(** [f"{coords}"] for a pair of ints: the tuple's [repr]. *)
Definition repr_coords (c : Z * Z) : string :=
  "(" +:+ pretty c.1 +:+ ", " +:+ pretty c.2 +:+ ")".

End Py.

(** ** The text-generation client (app/utils/ai_client.py)

    Every method of [AIClient] wraps one request to the external service.
    What the service does is not ours to compute: the parsed reply, or the
    exception raised on the way to it (network error, non-JSON content),
    is an [api_result] handed in by the caller. The prompt a method builds
    only shapes the request and is not modelled, except where building it
    can raise. *)
Module AIClient.

(** The result of [openai.chat.completions.create] followed by
    [json.loads]: either one of them raised [e] ([ApiError (str e)]),
    or the content parsed to [result]. *)
Inductive api_result (A : Type) : Type :=
| ApiError (msg : string)
| ApiOk (result : A).
Arguments ApiError {A} msg.
Arguments ApiOk {A} result.

(** A JSON value where the code expects text: a string, or a value of
    another type ([type_name] is the name of its Python type, [shown]
    what [str()] and an f-string make of it, [truth] its truthiness). *)
Inductive pytext : Type :=
| PyStr (s : string)
| PyNotStr (type_name shown : string) (truth : bool).

(** JSON [null]. *)
Definition PyNone : pytext := PyNotStr "NoneType" "None" false.

(** [f"{v}"] *)
Definition text_str (v : pytext) : string :=
  match v with PyStr s => s | PyNotStr _ shown _ => shown end.

(** [bool(v)] *)
Definition text_truthy (v : pytext) : bool :=
  match v with PyStr s => Py.truthy s | PyNotStr _ _ truth => truth end.

(** [sep.join(l)] on a list of such values: the strings of the list when
    all are strings; otherwise [str.join] raises [TypeError], with the
    index and the type of the first value that is not a string in its
    message. *)
Fixpoint strs (l : list pytext) : option (list string) :=
  match l with
  | [] => Some []
  | PyStr s :: rest => cons s <$> strs rest
  | PyNotStr _ _ _ :: _ => None
  end.

Fixpoint join_error_from (i : nat) (l : list pytext) : option string :=
  match l with
  | [] => None
  | PyStr _ :: rest => join_error_from (S i) rest
  | PyNotStr type_name _ _ :: _ =>
      Some ("sequence item " +:+ pretty i +:+ ": expected str instance, "
            +:+ type_name +:+ " found")
  end.

Definition join_error (l : list pytext) : option string :=
  join_error_from 0 l.

(** A JSON value where the code asks [isinstance(v, bool)]: a boolean,
    or something else of which only the truthiness matters. *)
Inductive pyflag : Type :=
| PyBool (b : bool)
| PyNotBool (truth : bool).

Definition flag_truthy (f : pyflag) : bool :=
  match f with PyBool b => b | PyNotBool t => t end.

Definition is_bool (f : pyflag) : bool :=
  match f with PyBool _ => true | PyNotBool _ => false end.

(** A JSON value where the code asks [isinstance(v, list)]: a list, or
    something else, of which [joins] says whether [", ".join(v)]
    succeeds (on a string, or on an object, it does). *)
Inductive pyvocab : Type :=
| PyList (l : list pytext)
| PyNotList (joins : bool).

Definition is_list (v : pyvocab) : bool :=
  match v with PyList _ => true | PyNotList _ => false end.

(** The value under the key "dialog" of an NPC dict, as the greeting
    reads it with ["greeting" in d] and [d["greeting"]]: an object, with
    or without the key; a string or a list that holds "greeting" (the
    test succeeds, the subscript raises [TypeError]) or does not; or a
    value the test itself raises [TypeError] on (null, a number, a
    boolean). *)
Inductive pydialog : Type :=
| DialogObject (greeting : option pytext)
| DialogHolds
| DialogLacks
| DialogNotIterable.

(** The reply dict of an NPC turn. Keys: "response_japanese",
    "response_english", "language_note". *)
Record ConvReply : Type := {
  response_japanese : option pytext;
  response_english : option pytext;
  language_note : option pytext
}.

(** The dict of location details. Keys: "name", "japanese_name",
    "description". *)
Record LocationDetails : Type := {
  ld_name : option pytext;
  ld_japanese_name : option pytext;
  ld_description : option pytext
}.

(** An item dict. The keys the generation prompt asks for ("name",
    "name_english", "name_romaji", "description", "can_be_taken",
    "vocabulary"), the "id" the engine sets (whatever the reply has
    under "id" is overwritten before anything reads it), and
    "japanese_name", which the engine's lookups also read. *)
Record Item : Type := {
  item_id : option string;
  item_name : option pytext;
  item_name_english : option pytext;
  item_name_romaji : option pytext;
  item_japanese_name : option pytext;
  item_description : option pytext;
  item_can_be_taken : option pyflag;
  item_vocabulary : option pyvocab
}.

(** An NPC dict. The keys the generation prompt asks for, the "id" the
    engine sets, and the keys the engine's lookups and greeting read:
    "japanese_name", "romaji" and "dialog". *)
Record Npc : Type := {
  npc_id : option string;
  npc_name : option pytext;
  npc_name_english : option pytext;
  npc_short_description : option pytext;
  npc_role : option pytext;
  npc_personality : option pytext;
  npc_greeting : option pytext;
  npc_vocabulary : option pyvocab;
  npc_japanese_name : option pytext;
  npc_romaji : option pytext;
  npc_dialog : option pydialog
}.

(** The parsed reply of an item examination ("description",
    "vocabulary") and the dict the method returns. *)
Record ExamJson : Type := {
  ej_description : option pytext;
  ej_vocabulary : option pyvocab
}.

Record ExamDetails : Type := {
  ex_description : pytext;
  ex_vocabulary : list pytext
}.

(** [AIClient.npc_conversation]. Never raises: without a key, on an
    incomplete reply and on any exception it returns a canned reply.
    ([ApiError e] stands for an exception [e] anywhere in the [try]
    block: while the messages are built, during the request, or in
    [json.loads].) *)
Definition no_key_reply : ConvReply :=
  {| response_japanese := Some (PyStr "すみません、今話せません。");
     response_english := Some (PyStr "Sorry, I can't talk right now.");
     language_note := Some (PyStr "Try again later.") |}.

Definition incomplete_reply : ConvReply :=
  {| response_japanese := Some (PyStr "すみません、よく理解できません。");
     response_english := Some (PyStr "I'm sorry, I don't understand well.");
     language_note := Some (PyStr "The AI response was incomplete.") |}.

Definition technical_reply (e : string) : ConvReply :=
  {| response_japanese := Some (PyStr "すみません、技術的な問題があります。");
     response_english := Some (PyStr "Sorry, there's a technical issue.");
     language_note := Some (PyStr ("Error: " +:+ e)) |}.

Definition npc_conversation (api_key : bool)
    (reply : api_result ConvReply) : ConvReply :=
  if negb api_key then no_key_reply
  else match reply with
       | ApiOk result =>
           match response_japanese result, response_english result with
           | Some _, Some _ => result
           | _, _ => incomplete_reply
           end
       | ApiError e => technical_reply e
       end.

(** [AIClient.generate_location_details]: the reply when it has the
    three keys, whatever is under them; the fallback otherwise. *)
Definition fallback_details (setting : string) (coords : Z * Z)
    : LocationDetails :=
  {| ld_name := Some (PyStr (setting +:+ " at " +:+ Py.repr_coords coords));
     ld_japanese_name :=
       Some (PyStr (setting +:+ " (" +:+ pretty coords.1 +:+ ","
                    +:+ pretty coords.2 +:+ ")"));
     ld_description :=
       Some (PyStr ("A procedurally generated " +:+ Py.lower setting
                    +:+ " at " +:+ Py.repr_coords coords
                    +:+ " (AI fallback).")) |}.

Definition generate_location_details (api_key : bool)
    (reply : api_result LocationDetails)
    (setting : string) (coords : Z * Z) : LocationDetails :=
  if negb api_key then fallback_details setting coords
  else match reply with
       | ApiOk result =>
           match ld_name result, ld_japanese_name result,
                 ld_description result with
           | Some _, Some _, Some _ => result
           | _, _, _ => fallback_details setting coords
           end
       | ApiError _ => fallback_details setting coords
       end.

(** [AIClient.generate_item_details]: [None] without a key, on an
    exception, on a missing key and on an ill-typed "vocabulary" or
    "can_be_taken". The values under the other four keys are not
    looked at. *)
Definition item_keys_present (r : Item) : bool :=
  Py.present (item_name r) && Py.present (item_name_english r)
  && Py.present (item_name_romaji r) && Py.present (item_description r)
  && Py.present (item_can_be_taken r) && Py.present (item_vocabulary r).

Definition item_types_ok (r : Item) : bool :=
  from_option is_list false (item_vocabulary r)
  && from_option is_bool false (item_can_be_taken r).

Definition generate_item_details (api_key : bool)
    (reply : api_result Item) : option Item :=
  if negb api_key then None
  else match reply with
       | ApiOk result =>
           if negb (item_keys_present result) then None
           else if negb (item_types_ok result) then None
           else Some result
       | ApiError _ => None
       end.

(** [AIClient.generate_npc_details] *)
Definition npc_keys_present (r : Npc) : bool :=
  Py.present (npc_name r) && Py.present (npc_name_english r)
  && Py.present (npc_short_description r) && Py.present (npc_role r)
  && Py.present (npc_personality r) && Py.present (npc_greeting r)
  && Py.present (npc_vocabulary r).

Definition generate_npc_details (api_key : bool)
    (reply : api_result Npc) : option Npc :=
  if negb api_key then None
  else match reply with
       | ApiOk result =>
           if negb (npc_keys_present result) then None
           else if negb (from_option is_list false (npc_vocabulary result))
           then None
           else Some result
       | ApiError _ => None
       end.

(** [AIClient.generate_enhanced_look]; [reply] is the raw content of
    the completion. The two joins of the prompt are inside the [try]
    block: a name that is not a string ends the method in its [except]
    clause, before any request. *)
Definition blurred (e : string) : string :=
  "You try to look closer, but the details blur. (AI Error: " +:+ e +:+ ")".

Definition generate_enhanced_look (api_key : bool)
    (reply : api_result string) (item_names npc_names : list pytext)
    : string :=
  if negb api_key
  then "You look around, but your imagination fails you without the AI's help."
  else match join_error item_names with
       | Some e => blurred e
       | None =>
           match join_error npc_names with
           | Some e => blurred e
           | None =>
               match reply with
               | ApiOk content => Py.strip content
               | ApiError e => blurred e
               end
           end
       end.

(** [AIClient.generate_item_examination_details]. The prompt joins the
    "vocabulary" of the item inside the [try] block: when that raises,
    the method returns its fallback without a request. *)
Definition fallback_response (item_data : Item) : ExamDetails :=
  {| ex_description :=
       default
         (PyStr ("You examine the "
                 +:+ text_str
                       (default (from_option PyStr PyNone (item_id item_data))
                                (item_name_english item_data))
                 +:+ ", but find nothing remarkable."))
         (item_description item_data);
     ex_vocabulary := [] |}.

Definition vocabulary_joins (item_data : Item) : bool :=
  match item_vocabulary item_data with
  | None => true
  | Some (PyList l) => negb (Py.present (join_error l))
  | Some (PyNotList joins) => joins
  end.

Definition generate_item_examination_details (api_key : bool)
    (reply : api_result ExamJson) (item_data : Item) : ExamDetails :=
  if negb api_key then fallback_response item_data
  else if negb (vocabulary_joins item_data) then fallback_response item_data
  else match reply with
       | ApiOk result =>
           match ej_description result, ej_vocabulary result with
           | Some d, Some (PyList v) =>
               {| ex_description :=
                    PyStr (text_str (default (PyStr "")
                                             (item_description item_data))
                           +:+ Py.nl +:+ Py.nl
                           +:+ "Upon closer examination: " +:+ text_str d);
                  ex_vocabulary := v |}
           | _, _ => fallback_response item_data
           end
       | ApiError _ => fallback_response item_data
       end.

End AIClient.
(** ** The image client (app/utils/image_client.py)

    [generate_location_image] and [get_image_url_for_web]. The files
    under data/images are a map from path to content; the two HTTP
    exchanges with the image service are handed in like the replies of
    the text service. *)
Module ImageClient.

(** What [response.json()] gives on a 200 reply to the generation
    request: it raises ([NotJson]); the structure is not the expected
    one ([NoItems]: no "openai" key, no "items" in it, or an empty
    list); or the first item is there, with its "image_resource_url"
    and "image" keys. *)
Inductive response_data : Type :=
| NotJson
| NoItems
| FirstItem (image_resource_url image : option string).

(** [requests.post(...)]: it raises (network error, timeout), or
    returns a response with a status code. *)
Inductive post_result : Type :=
| PostRaises
| PostStatus (status_code : Z) (data : response_data).

(** [requests.get(image_url)] *)
Inductive get_result : Type :=
| GetRaises
| GetStatus (status_code : Z) (content : string).

Record World : Type := {
  EDENAI_API_KEY : option string;
  generation : post_result;
  download : get_result
}.

Inductive Request : Type :=
| Post (text : string)
| Get (url : string).

Record Result : Type := mkResult {
  returned : option string;
  files : gmap string string;
  requests : list Request
}.

Definition image_path (location_id : string) : string :=
  "data/images/" +:+ location_id +:+ ".jpg".

(** [a or b] on two optional strings, and [if not a] on one: [None] and
    the empty string are falsy. *)
Definition or_else (a b : option string) : option string :=
  match a with
  | Some x => if Py.truthy x then a else b
  | None => b
  end.

Definition if_set (a : option string) : option string := or_else a None.

Definition enhanced_prompt (prompt : string)
    (location_setting : option string) : string :=
  "Create a detailed, high quality photo of a "
  +:+ default "Japanese" (or_else location_setting (Some "Japanese"))
  +:+ " location based on this description: " +:+ prompt
  +:+ " **Crucially, visually depict any specific items or people mentioned in the description clearly within the scene.** High resolution, natural lighting, photorealistic style.".

(** [generate_location_image]: the path of the image, or [None] if
    generation failed. *)
Definition generate_location_image (w : World)
    (location_id prompt : string) (force_new : bool)
    (location_setting : option string) (fs : gmap string string)
    : Result :=
  let path := image_path location_id in
  if Py.present (fs !! path) && negb force_new
  then mkResult (Some path) fs []
  else
    match if_set (EDENAI_API_KEY w) with
    | None => mkResult None fs []
    | Some _ =>
        let post := Post (enhanced_prompt prompt location_setting) in
        match generation w with
        | PostRaises => mkResult None fs [post]
        | PostStatus status_code data =>
            if negb (status_code =? 200) then mkResult None fs [post]
            else
              match data with
              | NotJson | NoItems => mkResult None fs [post]
              | FirstItem image_resource_url image =>
                  match if_set (or_else image_resource_url image) with
                  | None => mkResult None fs [post]
                  | Some image_url =>
                      match download w with
                      | GetRaises => mkResult None fs [post; Get image_url]
                      | GetStatus code content =>
                          if code =? 200
                          then mkResult (Some path) (<[path := content]> fs)
                                        [post; Get image_url]
                          else mkResult None fs [post; Get image_url]
                      end
                  end
              end
        end
    end.

(** [get_image_url_for_web] *)
Definition get_image_url_for_web (location_id : string)
    (fs : gmap string string) : string :=
  if Py.present (fs !! image_path location_id)
  then "/images/" +:+ location_id +:+ ".jpg"
  else "/images/placeholder.jpg".

(** The ways generation can fail: no key, a network error, a status
    other than 200, a malformed reply, a failed download. *)
Inductive generation_failure (w : World) : Prop :=
| missing_key :
    if_set (EDENAI_API_KEY w) = None → generation_failure w
| network_error :
    generation w = PostRaises → generation_failure w
| bad_status status_code data :
    generation w = PostStatus status_code data → status_code ≠ 200 →
    generation_failure w
| malformed_reply status_code data :
    generation w = PostStatus status_code data →
    data = NotJson ∨ data = NoItems
    ∨ (∃ image_resource_url image,
         data = FirstItem image_resource_url image
         ∧ if_set (or_else image_resource_url image) = None) →
    generation_failure w
| download_error status_code data :
    generation w = PostStatus status_code data →
    download w = GetRaises → generation_failure w
| download_bad_status status_code data code content :
    generation w = PostStatus status_code data →
    download w = GetStatus code content → code ≠ 200 →
    generation_failure w.

End ImageClient.

(** ** The game engine (run_game.py, class [SimpleGameEngine]) *)
Module Engine.
Import AIClient.

(** A location dict, as [_generate_location_data] builds it: all ten
    keys are always there. The name, the Japanese name and the
    description are what the details reply has under their keys.
    [loc_exits] is the "exits" dict, in insertion order. *)
Record Location : Type := {
  loc_id : string;
  loc_name : pytext;
  loc_japanese_name : pytext;
  loc_description : pytext;
  loc_setting : string;
  loc_coords : Z * Z;
  loc_exits : list (string * option (Z * Z));
  loc_items : list string;
  loc_npcs : list string;
  loc_image_prompt : string
}.

(** One entry of a conversation history: the dict with keys "user" and
    "assistant". The code stores the reply as [json.dumps(ai_response)]
    and reads it back with [json.loads]; the entry holds the reply
    itself. *)
Record Exchange : Type := {
  user : string;
  assistant : ConvReply
}.

(** The mutable attributes of the engine object. The vocabulary tables
    are read-only after start-up and are left out. *)
Record State : Type := {
  locations : gmap string Location;
  items : gmap string Item;
  npcs : gmap string Npc;
  player_inventory : list string;
  player_jlpt_level : string;
  conversation_history : gmap string (list Exchange);
  current_coords : Z * Z
}.

Definition location_settings_pool : list string :=
  ["Residential Neighborhood"; "Small Urban Park"; "Quiet Shopping Street";
   "Path near a Small Shrine"; "Empty Field"; "Riverside Path"].

(** [SimpleGameEngine.__init__] *)
Definition init (jlpt_level : string) : State :=
  {| locations := ∅; items := ∅; npcs := ∅; player_inventory := [];
     player_jlpt_level := jlpt_level; conversation_history := ∅;
     current_coords := (0, 0) |}.

Definition set_locations (f : gmap string Location → gmap string Location)
    (s : State) : State :=
  {| locations := f (locations s); items := items s; npcs := npcs s;
     player_inventory := player_inventory s;
     player_jlpt_level := player_jlpt_level s;
     conversation_history := conversation_history s;
     current_coords := current_coords s |}.

Definition set_items (f : gmap string Item → gmap string Item)
    (s : State) : State :=
  {| locations := locations s; items := f (items s); npcs := npcs s;
     player_inventory := player_inventory s;
     player_jlpt_level := player_jlpt_level s;
     conversation_history := conversation_history s;
     current_coords := current_coords s |}.

Definition set_npcs (f : gmap string Npc → gmap string Npc)
    (s : State) : State :=
  {| locations := locations s; items := items s; npcs := f (npcs s);
     player_inventory := player_inventory s;
     player_jlpt_level := player_jlpt_level s;
     conversation_history := conversation_history s;
     current_coords := current_coords s |}.

Definition set_player_inventory (f : list string → list string)
    (s : State) : State :=
  {| locations := locations s; items := items s; npcs := npcs s;
     player_inventory := f (player_inventory s);
     player_jlpt_level := player_jlpt_level s;
     conversation_history := conversation_history s;
     current_coords := current_coords s |}.

Definition set_conversation_history
    (f : gmap string (list Exchange) → gmap string (list Exchange))
    (s : State) : State :=
  {| locations := locations s; items := items s; npcs := npcs s;
     player_inventory := player_inventory s;
     player_jlpt_level := player_jlpt_level s;
     conversation_history := f (conversation_history s);
     current_coords := current_coords s |}.

Definition set_current_coords (c : Z * Z) (s : State) : State :=
  {| locations := locations s; items := items s; npcs := npcs s;
     player_inventory := player_inventory s;
     player_jlpt_level := player_jlpt_level s;
     conversation_history := conversation_history s;
     current_coords := c |}.

(** Import-time constants read from the environment: whether
    [openai.api_key] is set (ai_client.py) and [HAS_AI_CLIENT]
    (run_game.py). *)
Record Env : Type := {
  openai_api_key : bool;
  HAS_AI_CLIENT : bool
}.

(** What the outside world answers while one command runs: the index
    drawn by [random.choice], the numerator [k] of the float [k / 2^53]
    returned by [random.random()], and the service's reply to each kind
    of request (a command makes at most one request of each kind). *)
Record Oracle : Type := {
  setting_draw : nat;
  npc_roll : N;
  location_reply : api_result LocationDetails;
  item_reply : api_result Item;
  npc_reply : api_result Npc;
  conversation_reply : api_result ConvReply;
  look_reply : api_result string;
  examination_reply : api_result ExamJson
}.

(** The calls made to [AIClient] methods, with their arguments. *)
Inductive Call : Type :=
| CallLocationDetails (setting : string) (coords : Z * Z)
| CallItemDetails (setting : string)
| CallNpcDetails (setting : string)
| CallNpcConversation (npc : Npc) (player_input : string)
    (language_level : string) (history : list Exchange)
| CallEnhancedLook (setting : string) (item_names npc_names : list pytext)
| CallItemExamination (item : Item) (language_level : string).

(** What a method leaves in the trace: a call to [AIClient], or one of
    the two [logger.info] lines of [_generate_location_data] that
    report a new catalogue entry ("Successfully generated and added
    item ... (new_item_id) to location coords_str", and the same for an
    NPC). *)
Inductive Event : Type :=
| Called (c : Call)
| LogItemAdded (new_item_id coords_str : string)
| LogNpcAdded (new_npc_id coords_str : string).

(** The exceptions the engine's own code can raise: [parts[0]] on an
    empty list, [d[key]] on a missing key, a method called on an object
    that does not have it ([attribute] is the name of the method), and
    [str.join] on a value that is not a string. *)
Inductive exn : Type :=
| IndexError
| KeyError (key : string)
| AttributeError (attribute : string)
| TypeError.

Inductive outcome (A : Type) : Type :=
| Returned (a : A)
| Raised (e : exn).
Arguments Returned {A} a.
Arguments Raised {A} e.

(** The result of running a method: how it ended, the engine state at
    that point, and the trace it left, in order. *)
Record Result (A : Type) : Type := mkResult {
  outcome_of : outcome A;
  state_of : State;
  trace_of : list Event
}.
Arguments mkResult {A} _ _ _.
Arguments outcome_of {A} _.
Arguments state_of {A} _.
Arguments trace_of {A} _.

Definition M (A : Type) : Type := State → Result A.

Definition ret {A : Type} (a : A) : M A :=
  λ s, mkResult (Returned a) s [].

Definition bind {A B : Type} (m : M A) (f : A → M B) : M B :=
  λ s, let r := m s in
       match outcome_of r with
       | Returned a =>
           let r' := f a (state_of r) in
           mkResult (outcome_of r') (state_of r') (trace_of r ++ trace_of r')
       | Raised e => mkResult (Raised e) (state_of r) (trace_of r)
       end.

Definition get : M State := λ s, mkResult (Returned s) s [].
Definition modify (f : State → State) : M unit :=
  λ s, mkResult (Returned tt) (f s) [].
Definition raise {A : Type} (e : exn) : M A :=
  λ s, mkResult (Raised e) s [].
Definition called (c : Call) : M unit :=
  λ s, mkResult (Returned tt) s [Called c].
Definition logged (e : Event) : M unit :=
  λ s, mkResult (Returned tt) s [e].

(** A computation that only reads: its outcome, in the state as it
    is. *)
Definition lift {A : Type} (r : outcome A) : M A :=
  λ s, mkResult r s [].

(** [d[key]] on a dict modelled as a record: [KeyError] when absent. *)
Definition subscript {A : Type} (key : string) (field : option A) : M A :=
  match field with
  | Some v => ret v
  | None => raise (KeyError key)
  end.

(** [sep.join(l)] where the values of [l] come from a reply:
    [TypeError] unless all are strings. *)
Definition join_texts (sep : string) (l : list pytext) : outcome string :=
  match strs l with
  | Some lines => Returned (Py.join sep lines)
  | None => Raised TypeError
  end.

(** [d.get(key, "").lower()]: [AttributeError] when the value under the
    key is not a string. *)
Definition lowered (field : option pytext) : outcome string :=
  match field with
  | None => Returned (Py.lower "")
  | Some (PyStr s) => Returned (Py.lower s)
  | Some (PyNotStr _ _ _) => Raised (AttributeError "lower")
  end.

(** Sequencing of computations that only read. *)
Definition and_then {A B : Type} (r : outcome A) (f : A → outcome B)
    : outcome B :=
  match r with
  | Returned a => f a
  | Raised e => Raised e
  end.

Declare Scope engine_scope.
Delimit Scope engine_scope with engine.
Notation "'do' x <- m ; k" := (bind m (λ x, k))
  (at level 10, x name, m at level 100, k at level 200,
   format "'[v' 'do'  x  <-  m ; '/' k ']'") : engine_scope.
Notation "m ;; k" := (bind m (λ _, k))
  (at level 100, k at level 200, right associativity) : engine_scope.
Local Open Scope engine_scope.

(** [random.choice(pool)] at the drawn index. *)
Definition random_choice (draw : nat) (pool : list string) : string :=
  default "" (pool !! (draw `mod` length pool)%nat).

(** [random.random() < 0.70]: the double nearest to 0.70 is
    6305039478318694 / 2^53. *)
Definition npc_chance_met (roll : N) : bool :=
  (roll <? 6305039478318694)%N.

Definition _coords_to_str (coords : Z * Z) : string :=
  pretty coords.1 +:+ "," +:+ pretty coords.2.

Section WithEnvironment.
Context (env : Env).

(** [_generate_location_data]: the details of the location, then one
    item (always attempted), then one NPC (attempted when the roll
    is under 0.70), then the image prompt. The item and the NPC are
    entered in the catalogues as a side effect. The prompt joins the
    English name of the item, which is whatever the reply has under
    "name_english": when that is not a string the join raises
    [TypeError], after the item and the NPC have been entered. *)
Definition generate_item (o : Oracle) (coords_str setting : string)
    : M (list string * list pytext) :=
  called (CallItemDetails setting);;
  match generate_item_details (openai_api_key env) (item_reply o) with
  | Some generated_item_data =>
      do s <- get;
      let new_item_id :=
        "item_" +:+ coords_str +:+ "_" +:+ pretty (size (items s)) in
      let data :=
        {| item_id := Some new_item_id;
           item_name := item_name generated_item_data;
           item_name_english := item_name_english generated_item_data;
           item_name_romaji := item_name_romaji generated_item_data;
           item_japanese_name := item_japanese_name generated_item_data;
           item_description := item_description generated_item_data;
           item_can_be_taken := item_can_be_taken generated_item_data;
           item_vocabulary := item_vocabulary generated_item_data |} in
      modify (set_items (insert new_item_id data));;
      logged (LogItemAdded new_item_id coords_str);;
      ret ([new_item_id],
           [default (PyStr new_item_id) (item_name_english data)])
  | None => ret ([], [])
  end.

Definition generate_npc (o : Oracle) (coords_str setting : string)
    : M (list string * list string) :=
  if npc_chance_met (npc_roll o) then
    called (CallNpcDetails setting);;
    match generate_npc_details (openai_api_key env) (npc_reply o) with
    | Some generated_npc_data =>
        do s <- get;
        let new_npc_id :=
          "npc_" +:+ coords_str +:+ "_" +:+ pretty (size (npcs s)) in
        let data :=
          {| npc_id := Some new_npc_id;
             npc_name := npc_name generated_npc_data;
             npc_name_english := npc_name_english generated_npc_data;
             npc_short_description :=
               npc_short_description generated_npc_data;
             npc_role := npc_role generated_npc_data;
             npc_personality := npc_personality generated_npc_data;
             npc_greeting := npc_greeting generated_npc_data;
             npc_vocabulary := npc_vocabulary generated_npc_data;
             npc_japanese_name := npc_japanese_name generated_npc_data;
             npc_romaji := npc_romaji generated_npc_data;
             npc_dialog := npc_dialog generated_npc_data |} in
        modify (set_npcs (insert new_npc_id data));;
        modify (set_conversation_history (insert new_npc_id []));;
        logged (LogNpcAdded new_npc_id coords_str);;
        ret ([new_npc_id],
             [text_str (default (PyStr new_npc_id) (npc_name data))
              +:+ " (the "
              +:+ text_str (default (PyStr "person") (npc_role data))
              +:+ ")"])
    | None => ret ([], [])
    end
  else ret ([], []).

Definition _generate_location_data (o : Oracle) (coords : Z * Z)
    (setting : string) : M Location :=
  let coords_str := _coords_to_str coords in
  let location_id := "loc_" +:+ coords_str in
  called (CallLocationDetails setting coords);;
  let ai_details :=
    generate_location_details (openai_api_key env) (location_reply o)
      setting coords in
  let location_name :=
    default (PyStr (setting +:+ " at " +:+ Py.repr_coords coords))
      (ld_name ai_details) in
  let location_jp_name :=
    default (PyStr (setting +:+ " (" +:+ pretty coords.1 +:+ ","
                    +:+ pretty coords.2 +:+ ")"))
      (ld_japanese_name ai_details) in
  let location_desc :=
    default (PyStr ("A procedurally generated " +:+ Py.lower setting
                    +:+ " at " +:+ Py.repr_coords coords +:+ "."))
      (ld_description ai_details) in
  do item_part <- generate_item o coords_str setting;
  let '(new_items, item_names_for_prompt) := item_part in
  do npc_part <- generate_npc o coords_str setting;
  let '(new_npcs, npc_names_for_prompt) := npc_part in
  let image_prompt :=
    text_str location_desc +:+ " Setting: " +:+ setting
    +:+ ". Style: photorealistic." in
  do items_visible <-
    match item_names_for_prompt with
    | [] => ret ""
    | _ =>
        do joined <- lift (join_texts ", " item_names_for_prompt);
        ret (" Items visible: " +:+ joined +:+ ".")
    end;
  let image_prompt :=
    image_prompt +:+ items_visible
    +:+ match npc_names_for_prompt with
        | [] => ""
        | _ => " People present: " +:+ Py.join ", " npc_names_for_prompt
               +:+ "."
        end in
  ret {| loc_id := location_id;
         loc_name := location_name;
         loc_japanese_name := location_jp_name;
         loc_description := location_desc;
         loc_setting := setting;
         loc_coords := coords;
         loc_exits := [];
         loc_items := new_items;
         loc_npcs := new_npcs;
         loc_image_prompt := image_prompt |}.

(** Whether the join of the image prompt goes through: no item was
    generated, or the item has a string under "name_english". *)
Definition item_name_joins (o : Oracle) : bool :=
  match generate_item_details (openai_api_key env) (item_reply o) with
  | Some generated_item_data =>
      match item_name_english generated_item_data with
      | Some (PyNotStr _ _ _) => false
      | _ => true
      end
  | None => true
  end.

(** [load_game_data], from the reset of the catalogues on: the
    starting location (0,0) is generated unless it is there, and the
    player is placed on it. (The reading of the vocabulary files in
    between touches none of the attributes of [State]; this is the
    start-up that finds its files.) *)
Definition load_game_data (o : Oracle) : M unit :=
  modify (set_items (λ _, ∅));;
  modify (set_npcs (λ _, ∅));;
  modify (set_conversation_history (λ _, ∅));;
  let start_coords_str := _coords_to_str (0, 0) in
  do s <- get;
  match locations s !! start_coords_str with
  | None =>
      let start_setting := "Quiet Shopping Street" in
      do start_location_data <-
        _generate_location_data o (0, 0) start_setting;
      modify (set_locations (insert start_coords_str start_location_data))
  | Some _ => ret tt
  end;;
  modify (set_current_coords (0, 0)).

(** The view returned by [get_location_description]: the dict with
    keys "description", "items" and "npcs". *)
Record LocationView : Type := {
  view_description : string;
  view_items : list Item;
  view_npcs : list Npc
}.

(** Truthiness of a catalogued dict: it is non-empty. *)
Definition item_truthy (d : Item) : bool :=
  Py.present (item_id d) || Py.present (item_name d)
  || Py.present (item_name_english d) || Py.present (item_name_romaji d)
  || Py.present (item_japanese_name d) || Py.present (item_description d)
  || Py.present (item_can_be_taken d) || Py.present (item_vocabulary d).

Definition npc_truthy (d : Npc) : bool :=
  Py.present (npc_id d) || Py.present (npc_name d)
  || Py.present (npc_name_english d)
  || Py.present (npc_short_description d) || Py.present (npc_role d)
  || Py.present (npc_personality d) || Py.present (npc_greeting d)
  || Py.present (npc_vocabulary d) || Py.present (npc_japanese_name d)
  || Py.present (npc_romaji d) || Py.present (npc_dialog d).

(** [self.items.get(item_id)] followed by [if item_details:] *)
Definition item_details (s : State) (item_id : string) : option Item :=
  match items s !! item_id with
  | Some d => if item_truthy d then Some d else None
  | None => None
  end.

Definition npc_details (s : State) (npc_id : string) : option Npc :=
  match npcs s !! npc_id with
  | Some d => if npc_truthy d then Some d else None
  | None => None
  end.

(** [get_location_description]. The lines of the description are
    joined at the end; the second of them is the stored description
    itself, so the join raises [TypeError] when that is not a string. *)
Definition get_location_description (s : State) (coords_str : string)
    : outcome (option LocationView) :=
  match locations s !! coords_str with
  | None => Returned None
  | Some location =>
      let head :=
        [PyStr ("Location: " +:+ text_str (loc_name location) +:+ " ("
                +:+ coords_str +:+ ")");
         loc_description location] in
      let item_lines :=
        match loc_items location with
        | [] => ["There are no items here."]
        | ids =>
            "You see:"
            :: map (λ item_id,
                      match item_details s item_id with
                      | Some d =>
                          "  - "
                          +:+ text_str (default (PyStr item_id)
                                                (item_name d))
                      | None =>
                          "  - An unknown item (" +:+ item_id +:+ ")"
                      end) ids
        end in
      let npc_lines :=
        match loc_npcs location with
        | [] => ["There is no one else here."]
        | ids =>
            "People present:"
            :: map (λ npc_id,
                      match npc_details s npc_id with
                      | Some d =>
                          "  - "
                          +:+ text_str (default (PyStr npc_id) (npc_name d))
                      | None => "  - Someone unknown (" +:+ npc_id +:+ ")"
                      end) ids
        end in
      let exits :=
        omap (λ e : string * option (Z * Z),
                match e.2 with Some _ => Some e.1 | None => None end)
             (loc_exits location) in
      let exit_line :=
        "Exits: "
        +:+ match exits with [] => "None" | _ => Py.join ", " exits end in
      let description_parts :=
        head ++ (PyStr <$> item_lines ++ npc_lines ++ [exit_line]) in
      and_then (join_texts Py.nl description_parts)
        (λ full_description_text,
           Returned
             (Some {| view_description := full_description_text;
                      view_items :=
                        omap (item_details s) (loc_items location);
                      view_npcs :=
                        omap (npc_details s) (loc_npcs location) |}))
  end.

(** The three lookups scan a list of ids in order and return the
    first catalogued dict one of whose names contains the query. For
    each dict they reach they first lower all four names, and so raise
    [AttributeError] at a name that is not a string, whatever the
    query. *)
Fixpoint first_match {A : Type} (matches : A → outcome bool)
    (catalogue : gmap string A) (ids : list string) : outcome (option A) :=
  match ids with
  | [] => Returned None
  | i :: rest =>
      match catalogue !! i with
      | Some d =>
          and_then (matches d)
            (λ found : bool,
               if found then Returned (Some d)
               else first_match matches catalogue rest)
      | None => first_match matches catalogue rest
      end
  end.

Definition npc_matches (target_name : string) (npc : Npc) : outcome bool :=
  and_then (lowered (PyStr <$> npc_id npc)) (λ id,
  and_then (lowered (npc_name npc)) (λ name,
  and_then (lowered (npc_japanese_name npc)) (λ japanese_name,
  and_then (lowered (npc_romaji npc)) (λ romaji,
    let name_matches := [id; name; japanese_name; romaji] in
    Returned (existsb (Py.contains (Py.lower target_name))
                      name_matches))))).

Definition item_matches (target_item_name : string) (item : Item)
    : outcome bool :=
  let target_item_name_lower := Py.lower target_item_name in
  and_then (lowered (PyStr <$> item_id item)) (λ id,
  and_then (lowered (item_name item)) (λ name,
  and_then (lowered (item_name_english item)) (λ name_english,
  and_then (lowered (item_japanese_name item)) (λ japanese_name,
    let name_matches := [id; name; name_english; japanese_name] in
    Returned (existsb (Py.contains target_item_name_lower)
                      (filter (λ name, Py.truthy name = true)
                              name_matches)))))).

Definition get_npc_in_location (s : State) (target_name : string)
    : outcome (option Npc) :=
  match locations s !! _coords_to_str (current_coords s) with
  | None => Returned None
  | Some location =>
      first_match (npc_matches target_name) (npcs s) (loc_npcs location)
  end.

Definition get_item_in_location (s : State) (target_item_name : string)
    : outcome (option Item) :=
  match locations s !! _coords_to_str (current_coords s) with
  | None => Returned None
  | Some location =>
      first_match (item_matches target_item_name) (items s)
                  (loc_items location)
  end.

Definition get_item_in_inventory (s : State) (target_item_name : string)
    : outcome (option Item) :=
  first_match (item_matches target_item_name) (items s)
              (player_inventory s).

(** [get_ai_enhanced_look_description] *)
Definition get_ai_enhanced_look_description (o : Oracle)
    (coords_str : string) : M string :=
  do s <- get;
  match locations s !! coords_str with
  | None => ret "You can't seem to get a good look at this place."
  | Some location =>
      let setting := loc_setting location in
      let item_names :=
        map (λ d, default (default (PyStr "an item") (item_name d))
                          (item_name_english d))
            (omap (item_details s) (loc_items location)) in
      let npc_names :=
        map (λ d, default (default (PyStr "someone") (npc_name d))
                          (npc_name_english d))
            (omap (npc_details s) (loc_npcs location)) in
      called (CallEnhancedLook setting item_names npc_names);;
      ret (generate_enhanced_look (openai_api_key env) (look_reply o)
             item_names npc_names)
  end.

(** [history[-5:]] *)
Definition last5 {A : Type} (history : list A) : list A :=
  drop (length history - 5) history.

(** [handle_npc_interaction]. The greeting is read from "dialog" when
    that holds one, else from "greeting". With something said and
    [HAS_AI_CLIENT], the turn goes to [AIClient.npc_conversation]; its
    reply always has "response_japanese" and "response_english", so the
    [except] clause of the source, which would answer with the "seems
    confused" line and [str(KeyError(key))], is never reached. *)
Definition handle_npc_interaction (o : Oracle) (npc : Npc)
    (player_input : string) : M string :=
  do npc_id <- subscript "id" (npc_id npc);
  do npc_name <- subscript "name" (npc_name npc);
  if negb (Py.truthy player_input) || negb (HAS_AI_CLIENT env) then
    do greeting <-
      match npc_dialog npc with
      | Some (DialogObject (Some greeting)) => ret greeting
      | Some DialogHolds | Some DialogNotIterable => raise TypeError
      | Some (DialogObject None) | Some DialogLacks | None =>
          ret (default (PyStr "Hello!") (npc_greeting npc))
      end;
    ret (Py.nl +:+ text_str npc_name +:+ " says: " +:+ Py.dq
         +:+ text_str greeting +:+ Py.dq +:+ Py.nl +:+ Py.nl
         +:+ "You can have a conversation with NPCs using 'talk [name] [your message]'."
         +:+ Py.nl)
  else
    do s <- get;
    let history := default [] (conversation_history s !! npc_id) in
    called (CallNpcConversation npc player_input (player_jlpt_level s)
                                history);;
    let ai_response :=
      npc_conversation (openai_api_key env) (conversation_reply o) in
    let confused (key : string) :=
      Py.nl +:+ text_str npc_name
      +:+ " seems confused and doesn't respond properly. (Error: '"
      +:+ key +:+ "')" +:+ Py.nl in
    match response_japanese ai_response with
    | None => ret (confused "response_japanese")
    | Some japanese =>
        match response_english ai_response with
        | None => ret (confused "response_english")
        | Some english =>
            let response :=
              Py.nl +:+ text_str npc_name +:+ " says in Japanese: "
              +:+ Py.dq +:+ text_str japanese +:+ Py.dq +:+ Py.nl
              +:+ "Translation: " +:+ Py.dq +:+ text_str english +:+ Py.dq
              +:+ Py.nl
              +:+ match language_note ai_response with
                  | Some note =>
                      if text_truthy note
                      then Py.nl +:+ "Language Note: " +:+ text_str note
                           +:+ Py.nl
                      else ""
                  | None => ""
                  end in
            let history :=
              history ++ [{| user := player_input;
                             assistant := ai_response |}] in
            let history :=
              if (5 <? length history)%nat then last5 history
              else history in
            modify (set_conversation_history (insert npc_id history));;
            ret response
        end
    end.

(** What [process_command] returns: a text, the view of a location
    (the [Optional] dict of [get_location_description]), or the dict
    of an item examination. The three vocabulary commands ("themes",
    "theme ...", "learn ...") only read the vocabulary tables; the
    text they print is not modelled and is [RStudy]. *)
Inductive Response : Type :=
| RText (text : string)
| RLocation (view : option LocationView)
| RExamination (details : ExamDetails)
| RStudy.

Definition direction_map (direction : string) : option (Z * Z) :=
  if String.eqb direction "north" then Some (0, 1)
  else if String.eqb direction "south" then Some (0, -1)
  else if String.eqb direction "east" then Some (1, 0)
  else if String.eqb direction "west" then Some (-1, 0)
  else if String.eqb direction "北" then Some (0, 1)
  else if String.eqb direction "南" then Some (0, -1)
  else if String.eqb direction "東" then Some (1, 0)
  else if String.eqb direction "西" then Some (-1, 0)
  else None.

(** [l.remove(x)]: the first occurrence goes (the callers test
    [x in l] first, so the [ValueError] of an absent [x] never
    arises). *)
Fixpoint remove_first (x : string) (l : list string) : list string :=
  match l with
  | [] => []
  | y :: r => if String.eqb x y then r else y :: remove_first x r
  end.

Definition with_items (f : list string → list string)
    (location : Location) : Location :=
  {| loc_id := loc_id location;
     loc_name := loc_name location;
     loc_japanese_name := loc_japanese_name location;
     loc_description := loc_description location;
     loc_setting := loc_setting location;
     loc_coords := loc_coords location;
     loc_exits := loc_exits location;
     loc_items := f (loc_items location);
     loc_npcs := loc_npcs location;
     loc_image_prompt := loc_image_prompt location |}.

(** [if d:] on the optional dict a lookup returned. *)
Definition if_item (d : option Item) : option Item :=
  match d with
  | Some item => if item_truthy item then Some item else None
  | None => None
  end.

Definition if_npc (d : option Npc) : option Npc :=
  match d with
  | Some npc => if npc_truthy npc then Some npc else None
  | None => None
  end.

(** [self.npcs[npc_id]['name'] for npc_id in ids if npc_id in self.npcs] *)
Fixpoint names_of_npcs (s : State) (ids : list string) : M (list pytext) :=
  match ids with
  | [] => ret []
  | i :: rest =>
      match npcs s !! i with
      | Some npc =>
          do name <- subscript "name" (npc_name npc);
          do names <- names_of_npcs s rest;
          ret (name :: names)
      | None => names_of_npcs s rest
      end
  end.

(** The lines of the "inventory" command. *)
Fixpoint inventory_list (s : State) (ids : list string) : M (list string) :=
  match ids with
  | [] => ret []
  | i :: rest =>
      do line <-
        match item_details s i with
        | Some item =>
            do name <- subscript "name" (item_name item);
            ret ("- " +:+ text_str name +:+ " ("
                 +:+ text_str (default (PyStr "") (item_name_english item))
                 +:+ ")")
        | None => ret ("- Unknown item (" +:+ i +:+ ")")
        end;
      do lines <- inventory_list s rest;
      ret (line :: lines)
  end.

Definition help_text : string :=
  Py.join Py.nl
    [""; "Commands:";
     "- look: Look at your surroundings";
     "- examine [object]: Look closely at an item";
     "- go [direction]: Move in a direction (north, south, east, west)";
     "- take [item name]: Pick up an item from the location";
     "- drop [item name]: Leave an item from your inventory here";
     "- inventory/inv: Check the items you are carrying";
     "- talk [person]: Talk to a person in the current location";
     "- talk [person] [message]: Have a conversation with an NPC";
     "- themes: List available vocabulary themes";
     "- theme [theme_name]: Show words for a specific theme";
     "- learn [word]: Show detailed information about a specific vocabulary word";
     "- help: Show this help";
     "- quit/exit: Exit the game";
     "            "].

Definition do_look (o : Oracle) (args : list string) : M Response :=
  match args with
  | [] =>
      do s <- get;
      do text <- get_ai_enhanced_look_description o
                   (_coords_to_str (current_coords s));
      ret (RText text)
  | _ =>
      ret (RText "To look at something specific, use 'examine [target]'. To look around, just type 'look'.")
  end.

(** The engine has no method [get_ai_item_examination_details]:
    examining an item that lies in the location raises
    [AttributeError]. *)
Definition do_examine (o : Oracle) (args : list string) : M Response :=
  match args with
  | [] =>
      ret (RText "What do you want to examine? (e.g., 'examine [item/person]')")
  | _ =>
      let target_name := Py.join " " args in
      do s <- get;
      do item_in_inventory <- lift (get_item_in_inventory s target_name);
      match if_item item_in_inventory with
      | Some item_in_inventory =>
          called (CallItemExamination item_in_inventory
                                      (player_jlpt_level s));;
          ret (RExamination
                 (generate_item_examination_details (openai_api_key env)
                    (examination_reply o) item_in_inventory))
      | None =>
          do item_in_location <- lift (get_item_in_location s target_name);
          match if_item item_in_location with
          | Some _ =>
              raise (AttributeError "get_ai_item_examination_details")
          | None =>
              ret (RText ("You don't see a '" +:+ target_name
                          +:+ "' here or in your inventory."))
          end
      end
  end.

(** The get-or-create step of the "go" branch: the block under
    [if target_coords_str not in self.locations], the move of the
    player, and the read [new_location = self.locations[...]]. *)
Definition go_to_coords (o : Oracle) (target_coords : Z * Z)
    : M Location :=
  let target_coords_str := _coords_to_str target_coords in
  do s <- get;
  match locations s !! target_coords_str with
  | None =>
      let new_setting :=
        random_choice (setting_draw o) location_settings_pool in
      do new_location_data <-
        _generate_location_data o target_coords new_setting;
      modify (set_locations (insert target_coords_str new_location_data))
  | Some _ => ret tt
  end;;
  modify (set_current_coords target_coords);;
  do s <- get;
  subscript target_coords_str (locations s !! target_coords_str).

(** The block under [if direction in direction_map]: the move by the
    delta of the direction, and the view of the location reached. *)
Definition move (o : Oracle) (delta : Z * Z) : M Response :=
  let '(dx, dy) := delta in
  do s <- get;
  let '(current_x, current_y) := current_coords s in
  let target_coords := (current_x + dx, current_y + dy) in
  let target_coords_str := _coords_to_str target_coords in
  do new_location <- go_to_coords o target_coords;
  do s <- get;
  do view <- lift (get_location_description s target_coords_str);
  ret (RLocation view).

Definition do_go (o : Oracle) (verb : string) (args : list string)
    : M Response :=
  let direction : option string :=
    match Py.mem verb ["go"; "move"; "行く"], args with
    | true, word :: _ => Some (Py.lower word)
    | _, _ =>
        if Py.mem verb ["north"; "n"; "北"] then Some "north"
        else if Py.mem verb ["south"; "s"; "南"] then Some "south"
        else if Py.mem verb ["east"; "e"; "東"] then Some "east"
        else if Py.mem verb ["west"; "w"; "西"] then Some "west"
        else None
    end in
  match direction with
  | None => ret (RText "Where do you want to go? (e.g., 'go north')")
  | Some direction =>
      if negb (Py.truthy direction)
      then ret (RText "Where do you want to go? (e.g., 'go north')")
      else
      match direction_map direction with
      | Some delta => move o delta
      | None =>
          ret (RText ("'" +:+ direction +:+ "' is not a valid direction."))
      end
  end.

Definition do_take (args : list string) : M Response :=
  let target_item_name := Py.join " " args in
  do s <- get;
  do item_to_take <- lift (get_item_in_location s target_item_name);
  match if_item item_to_take with
  | Some item_to_take =>
      if negb (flag_truthy (default (PyBool false)
                                    (item_can_be_taken item_to_take)))
      then
        do name <- subscript "name" (item_name item_to_take);
        ret (RText ("You can't take the " +:+ text_str name +:+ " ("
                    +:+ text_str (default (PyStr "")
                                          (item_name_english item_to_take))
                    +:+ "). It seems fixed in place."))
      else
        do item_id <- subscript "id" (item_id item_to_take);
        let current_coords_str := _coords_to_str (current_coords s) in
        do location <-
          subscript current_coords_str
                    (locations s !! current_coords_str);
        (if Py.mem item_id (loc_items location)
         then modify (set_locations
                        (insert current_coords_str
                           (with_items (remove_first item_id) location)))
         else ret tt);;
        modify (set_player_inventory (λ inventory, inventory ++ [item_id]));;
        do name <- subscript "name" (item_name item_to_take);
        ret (RText ("You take the " +:+ text_str name +:+ " ("
                    +:+ text_str (default (PyStr "")
                                          (item_name_english item_to_take))
                    +:+ ")."))
  | None =>
      ret (RText ("You don't see a '" +:+ target_item_name +:+ "' here."))
  end.

Definition do_drop (args : list string) : M Response :=
  let target_item_name := Py.join " " args in
  do s <- get;
  do item_to_drop <- lift (get_item_in_inventory s target_item_name);
  match if_item item_to_drop with
  | Some item_to_drop =>
      do item_id <- subscript "id" (item_id item_to_drop);
      let current_coords_str := _coords_to_str (current_coords s) in
      do location <-
        subscript current_coords_str (locations s !! current_coords_str);
      (if Py.mem item_id (player_inventory s)
       then modify (set_player_inventory (remove_first item_id))
       else ret tt);;
      modify (set_locations
                (insert current_coords_str
                   (with_items (λ l, l ++ [item_id]) location)));;
      do name <- subscript "name" (item_name item_to_drop);
      ret (RText ("You drop the " +:+ text_str name +:+ " ("
                  +:+ text_str (default (PyStr "")
                                        (item_name_english item_to_drop))
                  +:+ ")."))
  | None =>
      ret (RText ("You don't have a '" +:+ target_item_name
                  +:+ "' in your inventory."))
  end.

Definition do_inventory : M Response :=
  do s <- get;
  match player_inventory s with
  | [] => ret (RText "Your inventory is empty.")
  | ids =>
      do lines <- inventory_list s ids;
      ret (RText ("You are carrying:" +:+ Py.nl +:+ Py.join Py.nl lines))
  end.

Definition do_talk (o : Oracle) (args : list string) : M Response :=
  do s <- get;
  let npcs_here_ids :=
    match locations s !! _coords_to_str (current_coords s) with
    | Some location => loc_npcs location
    | None => []
    end in
  let num_npcs_here := length npcs_here_ids in
  let potential_npc_name := default "" (head args) in
  do found_npc_by_name <-
    lift (get_npc_in_location s (Py.lower potential_npc_name));
  let options : M string :=
    do names <- names_of_npcs s npcs_here_ids;
    lift (join_texts ", " names) in
  let no_target : M Response :=
    if (0 <? num_npcs_here)%nat then
      do names <- options;
      ret (RText ("You see " +:+ names
                  +:+ " here, but no one named '" +:+ potential_npc_name
                  +:+ "'."))
    else ret (RText "There is no one here to talk to.") in
  match if_npc found_npc_by_name with
  | Some target_npc =>
      do text <- handle_npc_interaction o target_npc
                   (Py.join " " (tail args));
      ret (RText text)
  | None =>
      match npcs_here_ids with
      | [target_npc_id] =>
          match if_npc (npcs s !! target_npc_id) with
          | Some target_npc =>
              do text <- handle_npc_interaction o target_npc
                           (Py.join " " args);
              ret (RText text)
          | None => no_target
          end
      | [] => no_target
      | _ =>
          do names <- options;
          ret (RText ("Who do you want to talk to? Options: " +:+ names))
      end
  end.

(** [process_command]. [parts[0]] raises [IndexError] when the
    command has no word. *)
Definition process_command (o : Oracle) (command : string) : M Response :=
  let parts := Py.split (Py.lower command) in
  match parts with
  | [] => raise IndexError
  | verb :: args =>
      let more := (1 <? length parts)%nat in
      if Py.mem verb ["look"; "l"; "見る"] then do_look o args
      else if String.eqb verb "examine" then do_examine o args
      else if Py.mem verb ["go"; "move"; "north"; "south"; "east"; "west";
                           "n"; "s"; "e"; "w";
                           "行く"; "北"; "南"; "東"; "西"]
      then do_go o verb args
      else if Py.mem verb ["take"; "get"; "取る"] && more then do_take args
      else if Py.mem verb ["drop"; "捨てる"] && more then do_drop args
      else if Py.mem verb ["inventory"; "inv"; "持ち物"] then do_inventory
      else if Py.mem verb ["talk"; "speak"; "話す"] && more
      then do_talk o args
      else if String.eqb verb "themes" then ret RStudy
      else if String.eqb verb "theme" && more then ret RStudy
      else if String.eqb verb "learn" && more then ret RStudy
      else if Py.mem verb ["help"; "ヘルプ"] then ret (RText help_text)
      else if Py.mem verb ["quit"; "exit"; "終了"] then ret (RText "exit")
      else ret (RText ("I don't understand '" +:+ command
                       +:+ "'. Type 'help' for a list of commands."))
  end.

(** The first words [process_command] tests for. *)
Definition known_verbs : list string :=
  ["look"; "l"; "見る"; "examine"; "go"; "move"; "north"; "south"; "east";
   "west"; "n"; "s"; "e"; "w"; "行く"; "北"; "南"; "東"; "西"; "take"; "get";
   "取る"; "drop"; "捨てる"; "inventory"; "inv"; "持ち物"; "talk"; "speak";
   "話す"; "themes"; "theme"; "learn"; "help"; "ヘルプ"; "quit"; "exit";
   "終了"].

(** A run of turns with one NPC: [handle_npc_interaction] once per
    turn, each turn with what the player says and what the world answers
    during it. *)
Fixpoint conversation (npc : Npc) (turns : list (Oracle * string))
    (s : State) : State :=
  match turns with
  | [] => s
  | (o, player_input) :: rest =>
      conversation npc rest
        (state_of (handle_npc_interaction o npc player_input s))
  end.

(** The history entry of a turn: what the player said, and the reply
    [AIClient.npc_conversation] gave for it. *)
Definition exchange_of (turn : Oracle * string) : Exchange :=
  {| user := turn.2;
     assistant :=
       npc_conversation (openai_api_key env) (conversation_reply turn.1) |}.

(** A session: the commands of the player, one after the other, each
    with what the outside world answers while it runs. A command that
    raises leaves the engine in the state it had reached (the web
    front end keeps serving). The result is the final state and the
    whole trace. *)
Fixpoint session (inputs : list (Oracle * string)) (s : State)
    : State * list Event :=
  match inputs with
  | [] => (s, [])
  | (o, command) :: rest =>
      let r := process_command o command s in
      let '(s', trace) := session rest (state_of r) in
      (s', trace_of r ++ trace)
  end.

(** A process lifetime: construction, [load_game_data], then a
    session. *)
Definition lifetime (jlpt_level : string) (start : Oracle)
    (inputs : list (Oracle * string)) : State * list Event :=
  let r := load_game_data start (init jlpt_level) in
  let '(s', trace) := session inputs (state_of r) in
  (s', trace_of r ++ trace).

(** The states the engine can be in between two commands. *)
Definition reachable (s : State) : Prop :=
  ∃ jlpt_level start inputs, (lifetime jlpt_level start inputs).1 = s.

End WithEnvironment.

(** The ids reported by the trace, in order. *)
Definition item_ids_added (trace : list Event) : list string :=
  omap (λ e, match e with LogItemAdded i _ => Some i | _ => None end) trace.

Definition npc_ids_added (trace : list Event) : list string :=
  omap (λ e, match e with LogNpcAdded i _ => Some i | _ => None end) trace.

(** Where an item can be: in the inventory, or in the item list of the
    location stored under a key of the grid. *)
Inductive Container : Type :=
| Inventory
| AtLocation (coords_str : string).

Definition holds (s : State) (c : Container) (item_id : string) : Prop :=
  match c with
  | Inventory => item_id ∈ player_inventory s
  | AtLocation k =>
      ∃ location, locations s !! k = Some location
                  ∧ item_id ∈ loc_items location
  end.

(** The ids of a catalogue are numbered below its size: each ends with
    an underscore and the decimal form of a number smaller than the number
    of entries. *)
Definition ids_numbered {A : Type} (catalogue : gmap string A) : Prop :=
  ∀ id, is_Some (catalogue !! id) →
        ∃ prefix (n : nat),
          id = prefix +:+ "_" +:+ pretty n ∧ (n < size catalogue)%nat.

(** All the item ids lying in the locations of a grid, and all the item
    ids held anywhere: in the inventory or in a location. *)
Definition located (grid : gmap string Location) : list string :=
  map_to_list grid ≫= (λ entry, loc_items entry.2).

Definition holders (s : State) : list string :=
  player_inventory s ++ located (locations s).

(** The invariant of the engine state between two commands: a
    catalogued item carries its key as "id" and has a "name"; the ids of
    both catalogues are numbered below their sizes; no id is held twice;
    and an id that is held is a key of the item catalogue. *)
Record invariant (s : State) : Prop := {
  inv_item_ids : ∀ key item, items s !! key = Some item →
                             item_id item = Some key;
  inv_item_named : ∀ key item, items s !! key = Some item →
                               is_Some (item_name item);
  inv_items_numbered : ids_numbered (items s);
  inv_npcs_numbered : ids_numbered (npcs s);
  inv_held_once : NoDup (holders s);
  inv_held_known : ∀ id, id ∈ holders s → is_Some (items s !! id)
}.

(** The player stands on a location of the grid. He does, unless the
    creation of the starting location raised, and then for as long as
    no move has succeeded; until then he carries nothing. *)
Definition placed (s : State) : Prop :=
  is_Some (locations s !! _coords_to_str (current_coords s)).

Definition settled (s : State) : Prop :=
  placed s ∨ player_inventory s = [].

(** What a step from [s] to [s'] with trace [trace] keeps true: the
    invariant holds again; the ids the trace reports are pairwise
    distinct, were free in the catalogues of [s] and are keys of the
    catalogues of [s']; and no key of a catalogue of [s] is lost. *)
Definition sound_step (s s' : State) (trace : list Event) : Prop :=
  invariant s'
  ∧ NoDup (item_ids_added trace)
  ∧ NoDup (npc_ids_added trace)
  ∧ (∀ id, id ∈ item_ids_added trace →
           items s !! id = None ∧ is_Some (items s' !! id))
  ∧ (∀ id, id ∈ npc_ids_added trace →
           npcs s !! id = None ∧ is_Some (npcs s' !! id))
  ∧ (∀ id, is_Some (items s !! id) → is_Some (items s' !! id))
  ∧ (∀ id, is_Some (npcs s !! id) → is_Some (npcs s' !! id)).

(** Two states with the same world: grid, catalogues, inventory and
    position (the conversation histories and the JLPT level may differ).
    A method is quiet when it leaves the world as it is and reports no
    new catalogue entry. *)
Definition same_world (s s' : State) : Prop :=
  locations s' = locations s
  ∧ items s' = items s
  ∧ npcs s' = npcs s
  ∧ player_inventory s' = player_inventory s
  ∧ current_coords s' = current_coords s.

Definition quiet {A : Type} (m : M A) : Prop :=
  ∀ s, same_world s (state_of (m s))
       ∧ item_ids_added (trace_of (m s)) = []
       ∧ npc_ids_added (trace_of (m s)) = [].

End Engine.

Import AIClient Engine.

(** ** Concrete worlds and states

    The inputs at which the examples, witnesses and counterexamples below
    evaluate the engine. *)

(** A world in which every request to the text service times out. *)
Definition silent_oracle : Oracle :=
  {| setting_draw := 0; npc_roll := 0;
     location_reply := ApiError "timeout";
     item_reply := ApiError "timeout";
     npc_reply := ApiError "timeout";
     conversation_reply := ApiError "timeout";
     look_reply := ApiError "timeout";
     examination_reply := ApiError "timeout" |}.

Definition keyed_env : Env :=
  {| openai_api_key := true; HAS_AI_CLIENT := true |}.

(** The engine after start-up and one step north, in that world. *)
Definition north_of_start : State :=
  (lifetime keyed_env "N5" silent_oracle [(silent_oracle, "go north")]).1.


(** A world whose text service answers every request well: a stone
    lantern that cannot be taken, a shopkeeper, a short reply. *)
Definition stone_lantern : Item :=
  {| item_id := None;
     item_name := Some (PyStr "灯籠");
     item_name_english := Some (PyStr "Stone Lantern");
     item_name_romaji := Some (PyStr "tourou");
     item_japanese_name := None;
     item_description := Some (PyStr "A weathered lantern by the path.");
     item_can_be_taken := Some (PyBool false);
     item_vocabulary := Some (PyList [PyStr "石"; PyStr "灯"]) |}.

Definition shopkeeper : Npc :=
  {| npc_id := None;
     npc_name := Some (PyStr "田中");
     npc_name_english := Some (PyStr "Kenji Tanaka");
     npc_short_description :=
       Some (PyStr "A shopkeeper sweeping the street.");
     npc_role := Some (PyStr "Shopkeeper");
     npc_personality := Some (PyStr "Friendly");
     npc_greeting := Some (PyStr "こんにちは");
     npc_vocabulary := Some (PyList [PyStr "店"]);
     npc_japanese_name := None;
     npc_romaji := None;
     npc_dialog := None |}.

Definition kind_oracle : Oracle :=
  {| setting_draw := 4; npc_roll := 5;
     location_reply :=
       ApiOk {| ld_name := Some (PyStr "Lantern Lane");
                ld_japanese_name := Some (PyStr "灯籠通り");
                ld_description :=
                  Some (PyStr "A narrow lane lit by lanterns.") |};
     item_reply := ApiOk stone_lantern;
     npc_reply := ApiOk shopkeeper;
     conversation_reply :=
       ApiOk {| response_japanese := Some (PyStr "はい");
                response_english := Some (PyStr "Yes");
                language_note := None |};
     look_reply := ApiOk " A quiet street. ";
     examination_reply := ApiError "timeout" |}.

(** The same world, except that the conversation request times out. *)
Definition mute_oracle : Oracle :=
  {| setting_draw := 4; npc_roll := 5;
     location_reply := location_reply kind_oracle;
     item_reply := item_reply kind_oracle;
     npc_reply := npc_reply kind_oracle;
     conversation_reply := ApiError "timeout";
     look_reply := look_reply kind_oracle;
     examination_reply := examination_reply kind_oracle |}.

(** The engine right after start-up in the kind world: the starting
    location holds the lantern "item_0,0_0" and the shopkeeper
    "npc_0,0_0". *)
Definition lantern_lane : State :=
  (lifetime keyed_env "N5" kind_oracle []).1.

Definition shopkeeper_here : Npc :=
  {| npc_id := Some "npc_0,0_0";
     npc_name := Some (PyStr "田中");
     npc_name_english := Some (PyStr "Kenji Tanaka");
     npc_short_description :=
       Some (PyStr "A shopkeeper sweeping the street.");
     npc_role := Some (PyStr "Shopkeeper");
     npc_personality := Some (PyStr "Friendly");
     npc_greeting := Some (PyStr "こんにちは");
     npc_vocabulary := Some (PyList [PyStr "店"]);
     npc_japanese_name := None;
     npc_romaji := None;
     npc_dialog := None |}.

Definition lantern_here : Item :=
  {| item_id := Some "item_0,0_0";
     item_name := Some (PyStr "灯籠");
     item_name_english := Some (PyStr "Stone Lantern");
     item_name_romaji := Some (PyStr "tourou");
     item_japanese_name := None;
     item_description := Some (PyStr "A weathered lantern by the path.");
     item_can_be_taken := Some (PyBool false);
     item_vocabulary := Some (PyList [PyStr "石"; PyStr "灯"]) |}.

(** A world whose item reply has every key the client asks for, a
    boolean "can_be_taken" and a list "vocabulary", and JSON [null]
    under "name_english": the client accepts it. *)
Definition unnamed_lantern : Item :=
  {| item_id := None;
     item_name := Some (PyStr "灯籠");
     item_name_english := Some PyNone;
     item_name_romaji := Some (PyStr "tourou");
     item_japanese_name := None;
     item_description := Some (PyStr "A weathered lantern by the path.");
     item_can_be_taken := Some (PyBool false);
     item_vocabulary := Some (PyList [PyStr "石"; PyStr "灯"]) |}.

Definition careless_oracle : Oracle :=
  {| setting_draw := 4; npc_roll := 5;
     location_reply := location_reply kind_oracle;
     item_reply := ApiOk unnamed_lantern;
     npc_reply := npc_reply kind_oracle;
     conversation_reply := conversation_reply kind_oracle;
     look_reply := look_reply kind_oracle;
     examination_reply := examination_reply kind_oracle |}.

(** A world whose item reply the client accepts as well, with JSON
    [null] under "name": the lantern is catalogued without a name that
    is a string. The engine right after start-up in that world. *)
Definition nameless_lantern : Item :=
  {| item_id := None;
     item_name := Some PyNone;
     item_name_english := Some (PyStr "Stone Lantern");
     item_name_romaji := Some (PyStr "tourou");
     item_japanese_name := None;
     item_description := Some (PyStr "A weathered lantern by the path.");
     item_can_be_taken := Some (PyBool false);
     item_vocabulary := Some (PyList [PyStr "石"; PyStr "灯"]) |}.

Definition forgetful_oracle : Oracle :=
  {| setting_draw := 4; npc_roll := 5;
     location_reply := location_reply kind_oracle;
     item_reply := ApiOk nameless_lantern;
     npc_reply := npc_reply kind_oracle;
     conversation_reply := conversation_reply kind_oracle;
     look_reply := look_reply kind_oracle;
     examination_reply := examination_reply kind_oracle |}.

Definition nameless_lane : State :=
  (lifetime keyed_env "N5" forgetful_oracle []).1.

(** A world whose details reply has the three keys the client asks
    for, and JSON [null] under "description"; no item, no NPC. *)
Definition blank_oracle : Oracle :=
  {| setting_draw := 4; npc_roll := 9007199254740991;
     location_reply :=
       ApiOk {| ld_name := Some (PyStr "Lantern Lane");
                ld_japanese_name := Some (PyStr "灯籠通り");
                ld_description := Some PyNone |};
     item_reply := ApiError "timeout";
     npc_reply := ApiError "timeout";
     conversation_reply := ApiError "timeout";
     look_reply := ApiError "timeout";
     examination_reply := ApiError "timeout" |}.

(** An image service that cannot be reached for want of a key, and one
    that answers with status 503. *)
Definition keyless_world : ImageClient.World :=
  {| ImageClient.EDENAI_API_KEY := None;
     ImageClient.generation := ImageClient.PostRaises;
     ImageClient.download := ImageClient.GetRaises |}.

Definition overloaded_world : ImageClient.World :=
  {| ImageClient.EDENAI_API_KEY := Some "secret";
     ImageClient.generation := ImageClient.PostStatus 503 ImageClient.NotJson;
     ImageClient.download := ImageClient.GetRaises |}.

(** A world whose item can be taken: a paper crane. *)
Definition paper_crane : Item :=
  {| item_id := None;
     item_name := Some (PyStr "折り鶴");
     item_name_english := Some (PyStr "Paper Crane");
     item_name_romaji := Some (PyStr "orizuru");
     item_japanese_name := None;
     item_description :=
       Some (PyStr "A small crane folded from red paper.");
     item_can_be_taken := Some (PyBool true);
     item_vocabulary := Some (PyList [PyStr "紙"; PyStr "鶴"]) |}.

Definition generous_oracle : Oracle :=
  {| setting_draw := 1; npc_roll := 9007199254740991;
     location_reply := ApiError "timeout";
     item_reply := ApiOk paper_crane;
     npc_reply := ApiOk shopkeeper;
     conversation_reply := ApiError "timeout";
     look_reply := ApiError "timeout";
     examination_reply := ApiError "timeout" |}.

(** The engine right after start-up in that world (the crane
    "item_0,0_0" lies on the starting location), and after the crane has
    been taken. *)
Definition crane_street : State :=
  (lifetime keyed_env "N5" generous_oracle []).1.

Definition crane_in_hand : State :=
  (lifetime keyed_env "N5" generous_oracle
     [(generous_oracle, "take crane")]).1.

Definition crane_here : Item :=
  {| item_id := Some "item_0,0_0";
     item_name := Some (PyStr "折り鶴");
     item_name_english := Some (PyStr "Paper Crane");
     item_name_romaji := Some (PyStr "orizuru");
     item_japanese_name := None;
     item_description :=
       Some (PyStr "A small crane folded from red paper.");
     item_can_be_taken := Some (PyBool true);
     item_vocabulary := Some (PyList [PyStr "紙"; PyStr "鶴"]) |}.

(** * Properties *)

(** ** The model on concrete inputs *)

Example lower_ex : Py.lower "Go NORTH" = "go north".
Proof. reflexivity. Qed.

Example split_ex : Py.split "  go   north " = ["go"; "north"].
Proof. reflexivity. Qed.

Example split_empty_ex : Py.split "" = [] ∧ Py.split "   " = [].
Proof. split; reflexivity. Qed.

(** The ideographic space U+3000 and the no-break space U+00A0 separate
    words like any other white space. *)
Example split_wide_ex :
  Py.split "take 石　灯籠" = ["take"; "石"; "灯籠"]
  ∧ Py.split "go north" = ["go"; "north"]
  ∧ Py.split "　" = [].
Proof. repeat split; reflexivity. Qed.

(** Letters outside ASCII are folded too: accented and full-width
    capitals, and the Greek capital sigma, which becomes the final sigma
    at the end of a word; kana and kanji have no case. *)
Example lower_wide_ex :
  Py.lower "ÉCOLE" = "école"
  ∧ Py.lower "ＧＯ" = "ｇｏ"
  ∧ Py.lower "ΟΔΟΣ ΣΑΣ" = "οδος σας"
  ∧ Py.lower "見る" = "見る".
Proof. repeat split; reflexivity. Qed.

Example strip_ex : Py.strip "  A quiet street.　" = "A quiet street.".
Proof. reflexivity. Qed.

Example code_points_ex :
  Py.code_points "aé見" = [97; 233; 35211]%N
  ∧ Py.utf8 [97; 233; 35211]%N = "aé見"
  ∧ String.length "見る" = 6%nat.
Proof. repeat split; reflexivity. Qed.

Example join_ex : Py.join " " ["old"; "stone"; "lantern"] = "old stone lantern".
Proof. reflexivity. Qed.

Example contains_ex :
  Py.contains "lan" "stone lantern" = true ∧ Py.contains "x" "lantern" = false
  ∧ Py.contains "" "" = true.
Proof. repeat split; reflexivity. Qed.

Example repr_coords_ex : Py.repr_coords (0, -1) = "(0, -1)".
Proof. reflexivity. Qed.

Example join_error_ex :
  join_error [PyStr "a"; PyNone; PyStr "b"]
  = Some "sequence item 1: expected str instance, NoneType found"
  ∧ join_texts ", " [PyStr "a"; PyStr "b"] = Returned "a, b"
  ∧ join_texts ", " [PyStr "a"; PyNone] = Raised TypeError.
Proof. repeat split; reflexivity. Qed.

(** ** Running the monad *)

Lemma bind_returned {A B : Type} (m : M A) (f : A → M B) (s : State) (a : A) :
  outcome_of (m s) = Returned a →
  bind m f s =
  mkResult (outcome_of (f a (state_of (m s))))
           (state_of (f a (state_of (m s))))
           (trace_of (m s) ++ trace_of (f a (state_of (m s)))).
Proof. intros H. unfold bind. rewrite H. reflexivity. Qed.

Lemma bind_raised {A B : Type} (m : M A) (f : A → M B) (s : State) (e : exn) :
  outcome_of (m s) = Raised e →
  bind m f s = mkResult (Raised e) (state_of (m s)) (trace_of (m s)).
Proof. intros H. unfold bind. rewrite H. reflexivity. Qed.

(** Unfolding of the monad's primitives and of the state accessors. *)
Ltac run :=
  cbn [bind ret get modify raise called logged subscript lift and_then
       outcome_of state_of trace_of
       set_locations set_items set_npcs set_player_inventory
       set_conversation_history set_current_coords
       locations items npcs player_inventory player_jlpt_level
       conversation_history current_coords].

(** ** Location creation *)

(** An item that passed the validation of [generate_item_details] has
    the keys "name" and "name_english". *)
Lemma generate_item_details_named api_key reply item :
  generate_item_details api_key reply = Some item →
  is_Some (item_name item) ∧ is_Some (item_name_english item).
Proof.
  unfold generate_item_details.
  destruct (negb api_key); [discriminate|].
  destruct reply as [e|result]; [discriminate|].
  destruct (item_keys_present result) eqn:Hkeys; [|discriminate].
  destruct (item_types_ok result); [|discriminate].
  intros [= <-]. unfold item_keys_present in Hkeys.
  destruct (item_name result); [|discriminate].
  destruct (item_name_english result); [eauto|discriminate].
Qed.

Lemma string_app_assoc (a b c : string) : (a +:+ b) +:+ c = a +:+ b +:+ c.
Proof.
  induction a as [|x a IH]; [reflexivity|].
  change ((String x a +:+ b) +:+ c) with (String x ((a +:+ b) +:+ c)).
  by rewrite IH.
Qed.

Section Creation.
Context (env : Env).

(** What [_generate_location_data] does, for every reply of the world.
    It never touches the grid, the inventory or the position of the
    player. It enters at most one item and at most one NPC in the
    catalogues, each under an id built from the coordinates and the size
    of its catalogue, and reports each in the trace. Then, when the join
    of the image prompt goes through, it returns a location that lists
    the new item and whose name and description are those of
    [generate_location_details]; and when it does not, it raises
    [TypeError], the catalogues keeping what was entered, the item at
    least. *)
Lemma generate_location_data_effect o coords setting s :
  let r := _generate_location_data env o coords setting s in
  let cs := _coords_to_str coords in
  let details :=
    generate_location_details (openai_api_key env) (location_reply o)
      setting coords in
  locations (state_of r) = locations s
  ∧ player_inventory (state_of r) = player_inventory s
  ∧ current_coords (state_of r) = current_coords s
  ∧ ∃ new_items,
      ((new_items = []
        ∧ items (state_of r) = items s
        ∧ item_ids_added (trace_of r) = [])
       ∨ (∃ data,
            let id := ("item_" +:+ cs) +:+ "_" +:+ pretty (size (items s)) in
            new_items = [id]
            ∧ items (state_of r) = <[id := data]> (items s)
            ∧ item_id data = Some id
            ∧ is_Some (item_name data)
            ∧ item_ids_added (trace_of r) = [id]))
      ∧ ((npcs (state_of r) = npcs s
          ∧ npc_ids_added (trace_of r) = [])
         ∨ (∃ data,
              let id := ("npc_" +:+ cs) +:+ "_" +:+ pretty (size (npcs s)) in
              npcs (state_of r) = <[id := data]> (npcs s)
              ∧ npc_ids_added (trace_of r) = [id]))
      ∧ (if item_name_joins env o
         then ∃ location,
                outcome_of r = Returned location
                ∧ loc_items location = new_items
                ∧ ld_name details = Some (loc_name location)
                ∧ ld_description details = Some (loc_description location)
                ∧ loc_coords location = coords
                ∧ loc_setting location = setting
         else outcome_of r = Raised TypeError ∧ new_items ≠ []).
Proof.
  intros r cs details. subst r cs.
  assert (Hdetails : ∃ name description,
             ld_name details = Some name
             ∧ ld_description details = Some description).
  { subst details. unfold generate_location_details, fallback_details.
    destruct (negb _); [simpl; eauto|].
    destruct (location_reply o) as [e|[[n|] [j|] [d|]]]; simpl; eauto. }
  destruct Hdetails as (name & description & Hname & Hdescription).
  unfold _generate_location_data, generate_item, generate_npc,
    item_name_joins.
  fold details. rewrite Hname, Hdescription.
  rewrite !string_app_assoc.
  destruct (generate_item_details _ _) as [item|] eqn:Hitem.
  - destruct (generate_item_details_named _ _ _ Hitem)
      as [Hnamed [english Henglish]].
    rewrite Henglish.
    destruct english as [english|type_name shown truth];
      destruct (npc_chance_met _);
      try destruct (generate_npc_details _ _) as [npc|].
    all: simpl.
    all: split_and!; try reflexivity.
    all: eexists; refine (conj _ (conj _ _));
      [ right; eexists; split_and!; first [reflexivity | exact Hnamed]
      | first [ left; split_and!; reflexivity
              | right; eexists; split_and!; reflexivity ]
      | first [ by split
              | eexists; split_and!; reflexivity ] ].
  - destruct (npc_chance_met _);
      try destruct (generate_npc_details _ _) as [npc|].
    all: simpl.
    all: split_and!; try reflexivity.
    all: eexists; refine (conj _ (conj _ _));
      [ left; split_and!; reflexivity
      | first [ left; split_and!; reflexivity
              | right; eexists; split_and!; reflexivity ]
      | eexists; split_and!; reflexivity ].
Qed.

(** The get-or-create step. For a coordinate of the grid it returns
    the stored record and moves the player, and that is all. For a new
    coordinate it runs [_generate_location_data]: when that returns, the
    location is stored under the key and the player is moved; when that
    raises, nothing is stored and the player stays where he is. *)
Lemma go_to_coords_effect o target s :
  let r := go_to_coords env o target s in
  let key := _coords_to_str target in
  let setting := random_choice (setting_draw o) location_settings_pool in
  let details :=
    generate_location_details (openai_api_key env) (location_reply o)
      setting target in
  player_inventory (state_of r) = player_inventory s
  ∧ ((∃ stored,
        locations s !! key = Some stored
        ∧ r = mkResult (Returned stored) (set_current_coords target s) [])
     ∨ (locations s !! key = None
        ∧ ∃ new_items,
            ((new_items = []
              ∧ items (state_of r) = items s
              ∧ item_ids_added (trace_of r) = [])
             ∨ (∃ data,
                  let id := ("item_" +:+ key) +:+ "_"
                            +:+ pretty (size (items s)) in
                  new_items = [id]
                  ∧ items (state_of r) = <[id := data]> (items s)
                  ∧ item_id data = Some id
                  ∧ is_Some (item_name data)
                  ∧ item_ids_added (trace_of r) = [id]))
            ∧ ((npcs (state_of r) = npcs s
                ∧ npc_ids_added (trace_of r) = [])
               ∨ (∃ data,
                    let id := ("npc_" +:+ key) +:+ "_"
                              +:+ pretty (size (npcs s)) in
                    npcs (state_of r) = <[id := data]> (npcs s)
                    ∧ npc_ids_added (trace_of r) = [id]))
            ∧ (if item_name_joins env o
               then ∃ location,
                      outcome_of r = Returned location
                      ∧ locations (state_of r)
                        = <[key := location]> (locations s)
                      ∧ current_coords (state_of r) = target
                      ∧ loc_items location = new_items
                      ∧ ld_name details = Some (loc_name location)
                      ∧ ld_description details
                        = Some (loc_description location)
                      ∧ loc_coords location = target
                      ∧ loc_setting location = setting
               else outcome_of r = Raised TypeError
                    ∧ locations (state_of r) = locations s
                    ∧ current_coords (state_of r) = current_coords s
                    ∧ new_items ≠ []))).
Proof.
  intros r key setting details. subst r key. unfold go_to_coords.
  rewrite (bind_returned _ _ _ s) by reflexivity.
  cbn [get outcome_of state_of trace_of].
  destruct (locations s !! _coords_to_str target) as [stored|] eqn:Hgrid.
  - run. rewrite Hgrid. run. split; [reflexivity|]. left. eauto.
  - destruct (generate_location_data_effect o target setting s)
      as (Hl & Hp & Hc & new_items & Hitems & Hnpcs & Hout).
    fold setting. fold details in Hout.
    destruct (item_name_joins env o).
    + destruct Hout as (location & Hr & Hlist & Hname & Hdesc & Hcoords
                        & Hsetting).
      rewrite (bind_returned _ _ _ tt)
        by (rewrite (bind_returned _ _ _ _ Hr); reflexivity).
      rewrite (bind_returned _ _ _ _ Hr).
      run. rewrite lookup_insert_eq. run. cbn [app].
      rewrite !app_nil_r, Hl.
      split; [exact Hp|]. right. split; [reflexivity|].
      exists new_items. split_and!; [exact Hitems | exact Hnpcs|].
      exists location. by split_and!.
    + destruct Hout as [Hout Hsome].
      rewrite (bind_raised _ _ _ TypeError)
        by (rewrite (bind_raised _ _ _ _ Hout); reflexivity).
      rewrite (bind_raised _ _ _ _ Hout). run. cbn [app].
      split; [exact Hp|]. right. split; [reflexivity|].
      exists new_items. by split_and!.
Qed.

(** The pool of settings is not empty, so the draw is one of its
    elements. *)
Lemma random_choice_in_pool draw :
  random_choice draw location_settings_pool ∈ location_settings_pool.
Proof.
  unfold random_choice.
  assert (Hlt : (draw `mod` length location_settings_pool
                 < length location_settings_pool)%nat)
    by (apply Nat.mod_upper_bound; discriminate).
  destruct (lookup_lt_is_Some_2 _ _ Hlt) as [x Hx].
  rewrite Hx. simpl. eapply list_elem_of_lookup_2, Hx.
Qed.

(** A move is the get-or-create step followed by the rendering of the
    location reached, which changes nothing; the outcome is that of the
    step when it raises, and that of the rendering otherwise. *)
Lemma move_runs o delta s :
  let target := ((current_coords s).1 + delta.1,
                 (current_coords s).2 + delta.2) in
  let g := go_to_coords env o target s in
  move env o delta s
  = mkResult
      match outcome_of g with
      | Returned _ =>
          match get_location_description (state_of g)
                  (_coords_to_str target) with
          | Returned view => Returned (RLocation view)
          | Raised e => Raised e
          end
      | Raised e => Raised e
      end
      (state_of g) (trace_of g).
Proof.
  intros target g. subst target g. destruct delta as [dx dy].
  unfold move. rewrite (bind_returned _ _ _ s) by reflexivity.
  cbn [get outcome_of state_of trace_of fst snd].
  destruct (current_coords s) as [x y]. cbn [fst snd app].
  set (g := go_to_coords env o (x + dx, y + dy) s).
  destruct (outcome_of g) as [location|e] eqn:Hg.
  - rewrite (bind_returned _ _ _ _ Hg). run.
    destruct (get_location_description _ _); run;
      by rewrite ?app_nil_r.
  - rewrite (bind_raised _ _ _ _ Hg). reflexivity.
Qed.

(** A "go" with a word of the direction table is the move by its
    delta. *)
Lemma do_go_moves o verb word rest delta s :
  Py.mem verb ["go"; "move"; "行く"] = true →
  direction_map (Py.lower word) = Some delta →
  do_go env o verb (word :: rest) s = move env o delta s.
Proof.
  intros Hverb Hdir. unfold do_go. rewrite Hverb.
  destruct (Py.lower word) as [|c w] eqn:Hw; [discriminate|].
  cbn [Py.truthy negb]. by rewrite Hdir.
Qed.

(** Whatever its words, a "go" either answers with a text and leaves
    the state alone, or is the move by one of the four deltas. *)
Lemma do_go_cases o verb args s :
  (∃ text, do_go env o verb args s = mkResult (Returned (RText text)) s [])
  ∨ (∃ delta, delta ∈ [(0, 1); (0, -1); (1, 0); (-1, 0)]
              ∧ do_go env o verb args s = move env o delta s).
Proof.
  unfold do_go.
  match goal with
  | |- context [match ?d with Some _ => _ | None => _ end] =>
      destruct d as [direction|]
  end; [|left; eauto].
  destruct (negb (Py.truthy direction)); [left; eauto|].
  destruct (direction_map direction) as [delta|] eqn:Hdir; [|left; eauto].
  right. exists delta. split; [|reflexivity].
  unfold direction_map in Hdir.
  repeat case_match; simplify_eq; set_solver.
Qed.

End Creation.

(** ** Movement *)

Section Movement.
Context (env : Env).

Lemma go_north_parses o s :
  process_command env o "go north" s = move env o (0, 1) s.
Proof. reflexivity. Qed.

Lemma go_south_parses o s :
  process_command env o "go south" s = move env o (0, -1) s.
Proof. reflexivity. Qed.

(** Where a move leaves the player. The grid only grows. The player
    ends on the target cell when that cell was in the grid or the join
    of the image prompt goes through, and whenever the move returns.
    When the target cell is new and the join does not go through, the
    move raises [TypeError]: the grid is as it was and the player has
    not moved. *)
Lemma move_effect o delta s :
  let r := move env o delta s in
  let target := ((current_coords s).1 + delta.1,
                 (current_coords s).2 + delta.2) in
  (∀ key, is_Some (locations s !! key) →
          is_Some (locations (state_of r) !! key))
  ∧ (is_Some (locations s !! _coords_to_str target)
     ∨ item_name_joins env o = true →
     current_coords (state_of r) = target)
  ∧ ((∃ view, outcome_of r = Returned view) →
     current_coords (state_of r) = target)
  ∧ (locations s !! _coords_to_str target = None →
     item_name_joins env o = false →
     outcome_of r = Raised TypeError
     ∧ locations (state_of r) = locations s
     ∧ current_coords (state_of r) = current_coords s).
Proof.
  intros r target. subst r. rewrite move_runs. fold target.
  cbn [outcome_of state_of].
  destruct (go_to_coords_effect env o target s)
    as (_ & [(stored & Hgrid & ->) | (Hgrid & new_items & _ & _ & Hout)]).
  - run. split_and!; [done | done | done |]. by rewrite Hgrid.
  - destruct (item_name_joins env o).
    + destruct Hout as (location & Hr & Hl & Hc & _).
      rewrite Hr, Hl, Hc. split_and!; [|done|done|done].
      intros key Hkey. rewrite lookup_insert_is_Some.
      destruct (decide (_coords_to_str target = key)); auto.
    + destruct Hout as (Hr & Hl & Hc & _).
      rewrite Hr, Hl, Hc. split_and!; [done| | |done].
      * rewrite Hgrid. by intros [[? ?]|?].
      * by intros [? ?].
Qed.

End Movement.

(** C3. The four directions have the deltas north=(0,1), south=(0,-1),
    east=(1,0), west=(-1,0), and no direction has another delta. "go
    north" followed by "go south" brings the player back to the starting
    coordinate when both commands return, and whenever the first of them
    has moved him away from a cell of the grid. But "go north" does not
    always move the player: when the cell to the north is new and the
    item reply has a value that is not a string under "name_english",
    the command raises [TypeError] before the position is set, and the
    "go south" that follows ends one cell south of the starting
    coordinate instead of on it. *)
Theorem movement_deltas_and_round_trip :
  direction_map "north" = Some (0, 1)
  ∧ direction_map "south" = Some (0, -1)
  ∧ direction_map "east" = Some (1, 0)
  ∧ direction_map "west" = Some (-1, 0)
  ∧ (∀ direction delta,
       direction_map direction = Some delta →
       delta ∈ [(0, 1); (0, -1); (1, 0); (-1, 0)])
  ∧ (∀ env o1 o2 s,
       let r1 := process_command env o1 "go north" s in
       let r2 := process_command env o2 "go south" (state_of r1) in
       let x := (current_coords s).1 in
       let y := (current_coords s).2 in
       ((∃ view, outcome_of r1 = Returned view) →
        (∃ view, outcome_of r2 = Returned view) →
        current_coords (state_of r1) = (x, y + 1)
        ∧ current_coords (state_of r2) = current_coords s)
       ∧ (is_Some (locations s !! _coords_to_str (current_coords s)) →
          current_coords (state_of r1) = (x, y + 1) →
          current_coords (state_of r2) = current_coords s)
       ∧ (locations s !! _coords_to_str (x, y + 1) = None →
          item_name_joins env o1 = false →
          outcome_of r1 = Raised TypeError
          ∧ current_coords (state_of r1) = current_coords s
          ∧ (is_Some (locations s !! _coords_to_str (x, y - 1))
             ∨ item_name_joins env o2 = true →
             current_coords (state_of r2) = (x, y - 1)
             ∧ current_coords (state_of r2) ≠ current_coords s))).
Proof.
  split_and!; try reflexivity.
  - intros direction delta. unfold direction_map.
    repeat case_match; intros [= <-]; set_solver.
  - intros env o1 o2 s r1 r2 x y. subst r1 r2.
    rewrite !go_north_parses, go_south_parses.
    destruct (move_effect env o1 (0, 1) s)
      as (Hgrows & _ & Hreturned & Hraised).
    set (s1 := state_of (move env o1 (0, 1) s)) in *.
    destruct (move_effect env o2 (0, -1) s1)
      as (_ & Hstored & Hreturned' & _).
    fold s1 in Hstored, Hreturned'. cbn [fst snd] in *.
    fold x y in Hreturned, Hraised.
    replace (x + 0) with x in * by lia.
    assert (Hback : current_coords s1 = (x, y + 1) →
                    ((current_coords s1).1 + 0, (current_coords s1).2 + -1)
                    = current_coords s).
    { intros ->. subst x y. destruct (current_coords s) as [x y].
      cbn [fst snd]. f_equal; lia. }
    split_and!.
    + intros Hr1 Hr2. split; [by apply Hreturned|].
      rewrite <- (Hback (Hreturned Hr1)). by apply Hreturned'.
    + intros Hplaced Hat. rewrite <- (Hback Hat). apply Hstored. left.
      rewrite (Hback Hat). by apply Hgrows.
    + intros Hnew Hjoin.
      destruct (Hraised Hnew Hjoin) as (Hr & Hl & Hc).
      split_and!; [done | done |].
      intros Hsouth.
      assert (Hthere : current_coords
                         (state_of (move env o2 (0, -1) s1))
                       = (x, y - 1)).
      { rewrite Hstored; rewrite Hc; fold x y.
        - f_equal; lia.
        - replace (x + 0, y + -1) with (x, y - 1) by (f_equal; lia).
          destruct Hsouth as [Hsouth|Hsouth]; [left|by right].
          subst s1. by rewrite Hl. }
      split; [exact Hthere|]. rewrite Hthere. subst x y.
      destruct (current_coords s) as [x y]. cbn [fst snd].
      intros [= ?]. lia.
Qed.

(** In the kind world the round trip ends where it began; in the world
    whose item reply has a null under "name_english", "go north" raises
    and the player stays, so that "go south" takes him one cell to the
    south. *)
Example round_trip_ex :
  current_coords
    (session keyed_env [(kind_oracle, "go north"); (kind_oracle, "go south")]
             lantern_lane).1
  = (0, 0)
  ∧ outcome_of (process_command keyed_env careless_oracle "go north"
                                lantern_lane)
    = Raised TypeError
  ∧ current_coords
      (session keyed_env
         [(careless_oracle, "go north"); (kind_oracle, "go south")]
         lantern_lane).1
    = (0, -1).
Proof. repeat split; reflexivity. Qed.

(** ** Rendering a location *)

Lemma strs_strings (lines : list string) : strs (PyStr <$> lines) = Some lines.
Proof.
  induction lines as [|line lines IH]; [reflexivity|].
  cbn [fmap list_fmap strs]. cbn [fmap list_fmap] in IH.
  by rewrite IH.
Qed.

(** [get_location_description] on a stored location. When the stored
    description is a string, it returns a view: its text begins with the
    line "Location: name (key)" and with the description, and its items
    and NPCs are the catalogued ones among the ids the location lists.
    When the stored description is not a string, it raises
    [TypeError]. *)
Lemma get_location_description_renders s key location :
  locations s !! key = Some location →
  match loc_description location with
  | PyStr description =>
      ∃ view more,
        get_location_description s key = Returned (Some view)
        ∧ view_description view
          = Py.join Py.nl
              (("Location: " +:+ text_str (loc_name location) +:+ " ("
                +:+ key +:+ ")")
               :: description :: more)
        ∧ view_items view = omap (item_details s) (loc_items location)
        ∧ view_npcs view = omap (npc_details s) (loc_npcs location)
  | PyNotStr _ _ _ => get_location_description s key = Raised TypeError
  end.
Proof.
  intros Hgrid. unfold get_location_description. rewrite Hgrid.
  unfold join_texts.
  destruct (loc_description location) as [description|type_name shown truth].
  - cbn [app strs]. rewrite strs_strings. cbn [fmap option_fmap option_map
                                               and_then].
    eexists _, _. split_and!; reflexivity.
  - reflexivity.
Qed.

(** ** Location creation: where it is total and where it is not *)

Section Totality.
Context (env : Env).

(** When the request for the details fails (no API key, an exception of
    the service, or a reply that lacks one of the three keys), the
    details are the fallback ones. *)
Lemma failed_details_are_fallback o setting coords :
  openai_api_key env = false
  ∨ (∃ e, location_reply o = ApiError e)
  ∨ (∃ d, location_reply o = ApiOk d
          ∧ (ld_name d = None ∨ ld_japanese_name d = None
             ∨ ld_description d = None)) →
  generate_location_details (openai_api_key env) (location_reply o)
    setting coords
  = fallback_details setting coords.
Proof.
  unfold generate_location_details.
  intros [-> | [[e ->] | (d & -> & Hmissing)]];
    [reflexivity| destruct (negb _); reflexivity|].
  destruct (negb _); [reflexivity|].
  destruct Hmissing as [-> | [-> | ->]]; repeat case_match; reflexivity.
Qed.

(** Without a key, and when the item request fails, no item is
    generated, and so the join of the image prompt goes through. *)
Lemma no_item_joins o :
  openai_api_key env = false ∨ (∃ e, item_reply o = ApiError e) →
  item_name_joins env o = true.
Proof.
  unfold item_name_joins, generate_item_details.
  intros [-> | [e ->]]; [reflexivity|]. by destruct (negb _).
Qed.

End Totality.

(** C1. Creating a location is total when the services fail, and is not
    total in general. For a move to a coordinate that is not yet in the
    grid:
    - when no item is generated or the item has a string under
      "name_english", the get-or-create step returns a location and
      stores that same record under the key of the coordinate, for a
      setting drawn from the pool; if moreover the request for the
      details fails, the name and the description are the fallback
      texts built from the setting and the coordinate, both non-empty,
      and the move returns the view of the location;
    - when the item reply passes the validation of the client with a
      value that is not a string under "name_english", the step raises
      [TypeError] to the caller of the command: nothing is stored under
      the key and the player has not moved;
    - when the details reply has its three keys and a value that is not
      a string under "description", the location is stored with it, the
      player is moved, and the move raises [TypeError] to the caller of
      the command. *)
Theorem location_creation_is_not_total env o delta s :
  let target := ((current_coords s).1 + delta.1,
                 (current_coords s).2 + delta.2) in
  let key := _coords_to_str target in
  let setting := random_choice (setting_draw o) location_settings_pool in
  let details :=
    generate_location_details (openai_api_key env) (location_reply o)
      setting target in
  locations s !! key = None →
  let g := go_to_coords env o target s in
  let r := move env o delta s in
  (item_name_joins env o = true →
   ∃ location,
     outcome_of g = Returned location
     ∧ locations (state_of g) !! key = Some location
     ∧ setting ∈ location_settings_pool
     ∧ loc_setting location = setting
     ∧ loc_coords location = target
     ∧ (openai_api_key env = false
        ∨ (∃ e, location_reply o = ApiError e)
        ∨ (∃ d, location_reply o = ApiOk d
                ∧ (ld_name d = None ∨ ld_japanese_name d = None
                   ∨ ld_description d = None)) →
        loc_name location
        = PyStr (setting +:+ " at " +:+ Py.repr_coords target)
        ∧ loc_description location
          = PyStr ("A procedurally generated " +:+ Py.lower setting
                   +:+ " at " +:+ Py.repr_coords target
                   +:+ " (AI fallback).")
        ∧ text_str (loc_name location) ≠ ""
        ∧ text_str (loc_description location) ≠ ""
        ∧ ∃ view, outcome_of r = Returned (RLocation (Some view))))
  ∧ (item_name_joins env o = false →
     outcome_of g = Raised TypeError
     ∧ outcome_of r = Raised TypeError
     ∧ locations (state_of r) !! key = None
     ∧ current_coords (state_of r) = current_coords s)
  ∧ (item_name_joins env o = true →
     ∀ type_name shown truth,
       ld_description details = Some (PyNotStr type_name shown truth) →
       ∃ location,
         outcome_of g = Returned location
         ∧ locations (state_of r) !! key = Some location
         ∧ loc_description location = PyNotStr type_name shown truth
         ∧ current_coords (state_of r) = target
         ∧ outcome_of r = Raised TypeError).
Proof.
  intros target key setting details Hgrid g r. subst r.
  rewrite move_runs. fold target g. fold key. cbn [outcome_of state_of].
  destruct (go_to_coords_effect env o target s)
    as (_ & [(stored & Hstored & _) | (_ & new_items & _ & _ & Hout)]).
  { fold key in Hstored. congruence. }
  fold key setting details g in Hout.
  destruct (item_name_joins env o).
  - destruct Hout as (location & Hr & Hl & Hc & _ & Hname & Hdesc & Hcoords
                      & Hsetting).
    assert (Hthere : locations (state_of g) !! key = Some location)
      by (rewrite Hl; apply lookup_insert_eq).
    pose proof (get_location_description_renders _ _ _ Hthere) as Hview.
    split_and!; [|done|].
    + intros _. exists location. split_and!; try done.
      { apply random_choice_in_pool. }
      intros Hfails. subst details.
      rewrite (failed_details_are_fallback env o setting target Hfails)
        in Hname, Hdesc.
      injection Hname as <-. injection Hdesc as Hd. rewrite <- Hd in *.
      destruct Hview as (view & more & Hv & _).
      split_and!; [done | done | | | ].
      * cbn [text_str]. pose proof (random_choice_in_pool (setting_draw o))
          as Hpool. fold setting in Hpool.
        intros Hempty. destruct setting; [|discriminate].
        unfold location_settings_pool in Hpool.
        repeat (apply elem_of_cons in Hpool as [Hpool|Hpool];
                [discriminate|]).
        by apply elem_of_nil in Hpool.
      * discriminate.
      * rewrite Hr, Hv. eauto.
    + intros _ type_name shown truth Hnull.
      rewrite Hdesc in Hnull. injection Hnull as Hnull.
      rewrite Hnull in Hview.
      exists location. rewrite Hr, Hview. by split_and!.
  - destruct Hout as (Hr & Hl & Hc & _).
    split_and!; [done| |done].
    intros _. rewrite Hr, Hl. by split_and!.
Qed.

Lemma location_creation_is_not_total_witness :
  (∃ view,
     outcome_of (move keyed_env silent_oracle (0, 1) north_of_start)
     = Returned (RLocation (Some view)))
  ∧ outcome_of (move keyed_env careless_oracle (0, 1) north_of_start)
    = Raised TypeError
  ∧ outcome_of (move keyed_env blank_oracle (0, 1) north_of_start)
    = Raised TypeError.
Proof.
  pose proof (location_creation_is_not_total keyed_env silent_oracle (0, 1)
                north_of_start eq_refl) as (Hfails & _ & _).
  pose proof (location_creation_is_not_total keyed_env careless_oracle (0, 1)
                north_of_start eq_refl) as (_ & Hitem & _).
  pose proof (location_creation_is_not_total keyed_env blank_oracle (0, 1)
                north_of_start eq_refl) as (_ & _ & Hdetails).
  split_and!.
  - destruct (Hfails eq_refl) as (location & _ & _ & _ & _ & _ & Hfallback).
    destruct Hfallback as (_ & _ & _ & _ & Hview); [|exact Hview].
    right; left. by exists "timeout".
  - apply (Hitem eq_refl).
  - destruct (Hdetails eq_refl "NoneType" "None" false eq_refl)
      as (location & _ & _ & _ & _ & Hraises).
    exact Hraises.
Defined.

(** ** Commands without a word *)

(** C7. The empty command, and a command made of blanks only, has no
    first word: [parts[0]] raises [IndexError], and [process_command]
    raises it to its caller instead of answering "I don't understand". The
    engine state is as it was. *)
Theorem empty_command_raises env o s :
  process_command env o "" s = mkResult (Raised IndexError) s []
  ∧ process_command env o "   " s = mkResult (Raised IndexError) s [].
Proof. split; reflexivity. Qed.

(** A command whose first word is none of the verbs is answered with the
    fixed message; the state is untouched and no call is made. *)
Lemma unknown_verb_is_answered env o command verb args s :
  Py.split (Py.lower command) = verb :: args →
  verb ∉ known_verbs →
  process_command env o command s
  = mkResult
      (Returned (RText ("I don't understand '" +:+ command
                        +:+ "'. Type 'help' for a list of commands.")))
      s [].
Proof.
  intros Hsplit Hverb. unfold process_command. rewrite Hsplit.
  assert (Hmem : ∀ l, (∀ x, x ∈ l → x ∈ known_verbs) →
                      Py.mem verb l = false).
  { intros l Hl. apply bool_decide_eq_false. intros Hin. by apply Hverb, Hl. }
  assert (Heqb : ∀ v, v ∈ known_verbs → String.eqb verb v = false).
  { intros v Hv. apply String.eqb_neq. by intros ->. }
  repeat match goal with
         | |- context [Py.mem verb ?l] =>
             rewrite (Hmem l)
               by (intros x Hx;
                   repeat (apply elem_of_cons in Hx as [-> | Hx];
                           [by repeat constructor|]);
                   by apply elem_of_nil in Hx)
         | |- context [String.eqb verb ?v] =>
             rewrite (Heqb v) by (by repeat constructor)
         end.
  reflexivity.
Qed.

(** A word that is no verb is answered with the fixed message, and
    examining an item that lies in the location raises: the engine calls
    a method it does not have. A command made of white space that is not
    ASCII has no word either. *)
Example unknown_verb_ex :
  process_command keyed_env kind_oracle "Dance wildly" lantern_lane
  = mkResult
      (Returned (RText "I don't understand 'Dance wildly'. Type 'help' for a list of commands."))
      lantern_lane [].
Proof. reflexivity. Qed.

Example examine_in_location_ex :
  outcome_of (process_command keyed_env kind_oracle "examine lantern"
                              lantern_lane)
  = Raised (AttributeError "get_ai_item_examination_details").
Proof. reflexivity. Qed.

Example wide_blank_command_ex :
  outcome_of (process_command keyed_env kind_oracle "　" lantern_lane)
  = Raised IndexError.
Proof. reflexivity. Qed.

(** ** Revisiting a coordinate *)



(** Coming back to a cell whose stored description is JSON [null]: the
    player is moved, nothing is generated, and the rendering raises. *)
Example revisit_blank_ex :
  let s := (session keyed_env
              [(blank_oracle, "go north"); (silent_oracle, "go south")]
              lantern_lane).1 in
  let r := process_command keyed_env kind_oracle "go north" s in
  outcome_of r = Raised TypeError
  ∧ trace_of r = []
  ∧ current_coords (state_of r) = (0, 1).
Proof. repeat split; reflexivity. Qed.

(** ** Taking and dropping *)

Section Parsing.
Context (env : Env).

(** A command whose first word is a "take" verb and that has a second
    word runs the take branch. *)
Lemma process_command_take o command verb args s :
  Py.split (Py.lower command) = verb :: args →
  args ≠ [] →
  Py.mem verb ["take"; "get"; "取る"] = true →
  process_command env o command s = do_take args s.
Proof.
  intros Hsplit Hargs Hverb. unfold process_command. rewrite Hsplit.
  apply bool_decide_eq_true in Hverb.
  destruct args as [|word rest]; [done|].
  repeat (apply elem_of_cons in Hverb as [->|Hverb]); [reflexivity..|].
  by apply elem_of_nil in Hverb.
Qed.

Lemma process_command_drop o command verb args s :
  Py.split (Py.lower command) = verb :: args →
  args ≠ [] →
  Py.mem verb ["drop"; "捨てる"] = true →
  process_command env o command s = do_drop args s.
Proof.
  intros Hsplit Hargs Hverb. unfold process_command. rewrite Hsplit.
  apply bool_decide_eq_true in Hverb.
  destruct args as [|word rest]; [done|].
  repeat (apply elem_of_cons in Hverb as [->|Hverb]); [reflexivity..|].
  by apply elem_of_nil in Hverb.
Qed.

End Parsing.


(** ** Conversation history *)

Section Conversation.
Context (env : Env).

(** [history[-5:]] after the append is all the source does to the list:
    when it has five entries or less the slice is the list itself. *)
Lemma last5_short {A : Type} (history : list A) :
  (length history ≤ 5)%nat → last5 history = history.
Proof.
  intros H. unfold last5.
  replace (length history - 5)%nat with 0%nat by lia. reflexivity.
Qed.

Lemma last5_app_last5 {A : Type} (history more : list A) :
  last5 (last5 history ++ more) = last5 (history ++ more).
Proof.
  unfold last5. rewrite !length_app, length_drop.
  destruct (decide (length history ≤ 5)%nat) as [Hle|Hgt].
  - replace (length history - 5)%nat with 0%nat by lia.
    rewrite drop_0. f_equal. lia.
  - rewrite !drop_app, drop_drop, length_drop.
    f_equal; f_equal; lia.
Qed.

Lemma last5_app_long {A : Type} (history more : list A) :
  (5 ≤ length more)%nat →
  last5 (history ++ more) = drop (length more - 5) more.
Proof.
  intros H. unfold last5. rewrite length_app.
  rewrite drop_app_ge by lia. f_equal. lia.
Qed.

(** [AIClient.npc_conversation] always hands back a reply with its two
    required keys. *)
Lemma npc_conversation_complete api_key reply :
  ∃ japanese english,
    response_japanese (npc_conversation api_key reply) = Some japanese
    ∧ response_english (npc_conversation api_key reply) = Some english.
Proof.
  unfold npc_conversation.
  destruct api_key; [|simpl; eauto].
  destruct reply as [e|[[j|] [en|] n]]; simpl; eauto.
Qed.

(** One turn with something said, when [HAS_AI_CLIENT] holds: the NPC's
    history gets the exchange appended and is cut to its last five
    entries; nothing else in the state changes. This is so for every reply
    of the service, the canned replies included. *)
Lemma turn_appends o npc id name player_input s :
  HAS_AI_CLIENT env = true →
  npc_id npc = Some id →
  npc_name npc = Some name →
  player_input ≠ "" →
  state_of (handle_npc_interaction env o npc player_input s)
  = set_conversation_history
      (insert id
         (last5 (default [] (conversation_history s !! id)
                 ++ [exchange_of env (o, player_input)])))
      s.
Proof.
  intros Hai Hid Hname Hinput.
  unfold handle_npc_interaction. rewrite Hid, Hname, Hai. run.
  destruct player_input as [|c rest]; [done|].
  cbn [Py.truthy negb orb]. run.
  destruct (npc_conversation_complete (openai_api_key env)
              (conversation_reply o)) as (japanese & english & Hj & He).
  rewrite Hj, He. run.
  unfold exchange_of. cbn [fst snd].
  match goal with
  | |- context [if (5 <? length ?h)%nat then _ else _] =>
      destruct (Nat.ltb_spec 5 (length h)) as [Hlong|Hshort];
      [reflexivity | rewrite (last5_short h) by lia; reflexivity]
  end.
Qed.

(** A run of at least one turn leaves, for the NPC, the last five entries
    of its former history followed by the exchanges of the run, and leaves
    the histories of the other NPCs alone. *)
Lemma conversation_history_after npc id name turns s :
  HAS_AI_CLIENT env = true →
  npc_id npc = Some id →
  npc_name npc = Some name →
  Forall (λ turn, turn.2 ≠ "") turns →
  turns ≠ [] →
  conversation_history (conversation env npc turns s) !! id
  = Some (last5 (default [] (conversation_history s !! id)
                 ++ (exchange_of env <$> turns)))
  ∧ ∀ other, other ≠ id →
      conversation_history (conversation env npc turns s) !! other
      = conversation_history s !! other.
Proof.
  intros Hai Hid Hname Hsaid. revert s.
  induction Hsaid as [|[o player_input] rest Hinput Hrest IH];
    intros s Hne; [done|].
  cbn [conversation].
  rewrite (turn_appends o npc id name player_input s) by assumption.
  destruct rest as [|next rest'].
  - cbn [conversation fmap list_fmap]. run.
    split; [apply lookup_insert_eq|].
    intros other Hother. by apply lookup_insert_ne.
  - destruct (IH (set_conversation_history
                    (insert id
                       (last5 (default [] (conversation_history s !! id)
                               ++ [exchange_of env (o, player_input)])))
                    s)) as [Hhere Hothers]; [done|].
    rewrite Hhere. run. rewrite lookup_insert_eq. cbn [from_option].
    split.
    + f_equal. unfold Datatypes.id.
      rewrite last5_app_last5, <- app_assoc. reflexivity.
    + intros other Hother. rewrite (Hothers other Hother). run.
      by apply lookup_insert_ne.
Qed.

End Conversation.

(** C4. After 5+k turns with one NPC (k ≥ 1), each with something said
    and with [HAS_AI_CLIENT] on, the stored history of that NPC has
    exactly five entries: the exchanges (utterance, reply) of the last
    five turns, in the order of the turns, the earlier ones having been
    dropped from the front. The histories of the other NPCs are those of
    before. *)
Theorem conversation_ring_bound env npc id name turns k s :
  HAS_AI_CLIENT env = true →
  npc_id npc = Some id →
  npc_name npc = Some name →
  Forall (λ turn, turn.2 ≠ "") turns →
  length turns = (5 + k)%nat →
  (1 ≤ k)%nat →
  let s' := conversation env npc turns s in
  conversation_history s' !! id = Some (exchange_of env <$> drop k turns)
  ∧ length (exchange_of env <$> drop k turns) = 5%nat
  ∧ ∀ other, other ≠ id →
      conversation_history s' !! other = conversation_history s !! other.
Proof.
  intros Hai Hid Hname Hsaid Hlen Hk s'. subst s'.
  destruct (conversation_history_after env npc id name turns s)
    as [Hhere Hothers]; try assumption.
  { intros ->. simpl in Hlen. lia. }
  rewrite Hhere, last5_app_long by (rewrite length_fmap; lia).
  rewrite length_fmap, Hlen, <- fmap_drop.
  replace (5 + k - 5)%nat with k by lia.
  repeat split; [|exact Hothers].
  rewrite length_fmap, length_drop. lia.
Qed.

Lemma conversation_ring_bound_witness :
  let said (word : string) := (kind_oracle, word) in
  let turns := said <$> ["a"; "b"; "c"; "d"; "e"; "f"; "g"] in
  user <$> default [] (conversation_history
                         (conversation keyed_env shopkeeper_here turns
                                       lantern_lane)
                       !! "npc_0,0_0")
  = ["c"; "d"; "e"; "f"; "g"].
Proof.
  intros said turns.
  destruct (conversation_ring_bound keyed_env shopkeeper_here "npc_0,0_0"
              (PyStr "田中") turns 2 lantern_lane) as [-> _];
    [reflexivity | reflexivity | reflexivity
     | repeat constructor; discriminate | reflexivity | lia |].
  reflexivity.
Defined.

(** C5. A turn whose conversation request fails with an exception is
    answered with the fixed "technical issue" lines, followed by a
    language note that carries the text of the error. The history of the
    NPC is not left alone: the failed turn is appended to it like any
    other one (the utterance with the canned reply), the list being cut
    to its last five entries. Only the histories of the other NPCs are
    unchanged. *)
Theorem failed_turn_is_answered_and_recorded env o npc id name e
    player_input s :
  openai_api_key env = true →
  HAS_AI_CLIENT env = true →
  npc_id npc = Some id →
  npc_name npc = Some name →
  player_input ≠ "" →
  conversation_reply o = ApiError e →
  let r := handle_npc_interaction env o npc player_input s in
  outcome_of r
  = Returned (Py.nl +:+ text_str name +:+ " says in Japanese: " +:+ Py.dq
              +:+ "すみません、技術的な問題があります。" +:+ Py.dq +:+ Py.nl
              +:+ "Translation: " +:+ Py.dq
              +:+ "Sorry, there's a technical issue." +:+ Py.dq +:+ Py.nl
              +:+ Py.nl +:+ "Language Note: " +:+ "Error: " +:+ e +:+ Py.nl)
  ∧ conversation_history (state_of r) !! id
    = Some (last5 (default [] (conversation_history s !! id)
                   ++ [{| user := player_input;
                          assistant := technical_reply e |}]))
  ∧ ∀ other, other ≠ id →
      conversation_history (state_of r) !! other
      = conversation_history s !! other.
Proof.
  intros Hkey Hai Hid Hname Hinput Hreply r. subst r.
  split.
  - unfold handle_npc_interaction. rewrite Hid, Hname, Hai. run.
    destruct player_input as [|c rest]; [done|].
    cbn [Py.truthy negb orb]. run.
    unfold npc_conversation. rewrite Hkey, Hreply.
    cbn [negb technical_reply response_japanese response_english
         language_note text_truthy text_str Py.truthy].
    run. reflexivity.
  - rewrite (turn_appends env o npc id name player_input s) by assumption.
    run. unfold exchange_of. cbn [fst snd].
    unfold npc_conversation. rewrite Hkey, Hreply. cbn [negb].
    split; [apply lookup_insert_eq|].
    intros other Hother. by apply lookup_insert_ne.
Qed.

Lemma failed_turn_is_answered_and_recorded_witness :
  let r := handle_npc_interaction keyed_env mute_oracle shopkeeper_here
             "hello" lantern_lane in
  conversation_history lantern_lane !! "npc_0,0_0" = Some []
  ∧ conversation_history (state_of r) !! "npc_0,0_0"
    = Some [{| user := "hello"; assistant := technical_reply "timeout" |}].
Proof.
  intros r. subst r. split; [reflexivity|].
  destruct (failed_turn_is_answered_and_recorded keyed_env mute_oracle
              shopkeeper_here "npc_0,0_0" (PyStr "田中") "timeout" "hello"
              lantern_lane) as (_ & H & _);
    [reflexivity | reflexivity | reflexivity | reflexivity | discriminate
     | reflexivity |].
  rewrite H. reflexivity.
Defined.

(** The same through the command: in the kind world with a conversation
    request that times out, "talk 田中 hello" answers with the technical
    lines, and the history of the shopkeeper, empty before, holds the
    failed turn after it. *)
Example failed_turn_ex :
  let r := process_command keyed_env mute_oracle "talk 田中 hello"
             lantern_lane in
  outcome_of r
  = Returned
      (RText (Py.nl +:+ "田中 says in Japanese: " +:+ Py.dq
              +:+ "すみません、技術的な問題があります。" +:+ Py.dq +:+ Py.nl
              +:+ "Translation: " +:+ Py.dq
              +:+ "Sorry, there's a technical issue." +:+ Py.dq +:+ Py.nl
              +:+ Py.nl +:+ "Language Note: Error: timeout" +:+ Py.nl))
  ∧ conversation_history lantern_lane !! "npc_0,0_0" = Some []
  ∧ conversation_history (state_of r) !! "npc_0,0_0"
    = Some [{| user := "hello"; assistant := technical_reply "timeout" |}].
Proof. repeat split; reflexivity. Qed.

(** ** Location images *)

(** C6 (as the code has it). [generate_location_image] returns the path
    of the image file without any request when the file exists and no new
    image is forced. When generation fails (missing key, network error,
    status other than 200, malformed reply, failed download) it returns
    [None] and writes no file: the placeholder is not its business. It is
    [get_image_url_for_web] that never returns a null: the URL of the
    image when its file exists, the URL of the placeholder otherwise, in
    particular after a failed generation. *)
Theorem image_is_cached_and_failure_is_none w location_id prompt force_new
    location_setting fs :
  let r := ImageClient.generate_location_image w location_id prompt force_new
             location_setting fs in
  let path := ImageClient.image_path location_id in
  (is_Some (fs !! path) → force_new = false →
   ImageClient.returned r = Some path
   ∧ ImageClient.requests r = []
   ∧ ImageClient.files r = fs)
  ∧ (fs !! path = None ∨ force_new = true →
     ImageClient.generation_failure w →
     ImageClient.returned r = None
     ∧ ImageClient.files r = fs)
  ∧ (is_Some (fs !! path) →
     ImageClient.get_image_url_for_web location_id fs
     = "/images/" +:+ location_id +:+ ".jpg")
  ∧ (fs !! path = None →
     ImageClient.get_image_url_for_web location_id (ImageClient.files r)
     = match ImageClient.returned r with
       | Some _ => "/images/" +:+ location_id +:+ ".jpg"
       | None => "/images/placeholder.jpg"
       end).
Proof.
  intros r path. subst r path.
  unfold ImageClient.generate_location_image,
    ImageClient.get_image_url_for_web.
  repeat apply conj.
  - intros [content ->] ->. simpl. repeat split.
  - intros Hnew Hfails.
    assert (Hguard : Py.present (fs !! ImageClient.image_path location_id)
                     && negb force_new = false).
    { destruct Hnew as [-> | ->]; [reflexivity|]. apply andb_false_r. }
    rewrite Hguard.
    destruct Hfails as [Hkey | Hpost | code data Hpost Hcode
                        | code data Hpost Hdata | code data Hpost Hget
                        | code data code' content Hpost Hget Hcode].
    + rewrite Hkey. split; reflexivity.
    + rewrite Hpost. case_match; split; reflexivity.
    + rewrite Hpost. apply Z.eqb_neq in Hcode. rewrite Hcode.
      case_match; split; reflexivity.
    + rewrite Hpost.
      destruct Hdata as [-> | [-> | (a & b & -> & ->)]];
        repeat case_match; split; reflexivity.
    + rewrite Hpost, Hget. repeat case_match; split; reflexivity.
    + rewrite Hpost, Hget. apply Z.eqb_neq in Hcode. rewrite Hcode.
      repeat case_match; split; reflexivity.
  - intros [content ->]. reflexivity.
  - intros Hnone. rewrite Hnone. cbn [Py.present andb].
    destruct (ImageClient.if_set (ImageClient.EDENAI_API_KEY w));
      [|simpl; rewrite Hnone; reflexivity].
    destruct (ImageClient.generation w) as [|code data];
      [simpl; rewrite Hnone; reflexivity|].
    destruct (code =? 200); [|simpl; rewrite Hnone; reflexivity].
    destruct data as [| |a b]; try (simpl; rewrite Hnone; reflexivity).
    cbn [negb].
    destruct (ImageClient.if_set (ImageClient.or_else a b));
      [|simpl; rewrite Hnone; reflexivity].
    destruct (ImageClient.download w) as [|code' content];
      [simpl; rewrite Hnone; reflexivity|].
    destruct (code' =? 200); [|simpl; rewrite Hnone; reflexivity].
    cbn [ImageClient.returned ImageClient.files].
    rewrite lookup_insert_eq. reflexivity.
Qed.

Lemma image_is_cached_and_failure_is_none_witness :
  let r := ImageClient.generate_location_image overloaded_world "loc_0,1"
             "A narrow lane." false (Some "Empty Field") ∅ in
  ImageClient.returned r = None
  ∧ ImageClient.requests
      (ImageClient.generate_location_image overloaded_world "loc_0,1"
         "A narrow lane." false None
         {[ImageClient.image_path "loc_0,1" := "jpeg bytes"]})
    = [].
Proof.
  split.
  - apply (image_is_cached_and_failure_is_none overloaded_world "loc_0,1"
             "A narrow lane." false (Some "Empty Field") ∅).
    + left. reflexivity.
    + apply (ImageClient.bad_status _ 503 ImageClient.NotJson);
        [reflexivity | discriminate].
  - apply (image_is_cached_and_failure_is_none overloaded_world "loc_0,1"
             "A narrow lane." false None
             {[ImageClient.image_path "loc_0,1" := "jpeg bytes"]}).
    + eexists. reflexivity.
    + reflexivity.
Defined.

(** The claim of C6 fails on the code: without a key and without a stored
    file, [generate_location_image] returns [None], not the path of a
    placeholder. *)
Lemma image_failure_counterexample :
  ImageClient.returned
    (ImageClient.generate_location_image keyless_world "loc_0,1"
       "A narrow lane." false (Some "Empty Field") ∅)
  = None.
Proof. reflexivity. Qed.

(** ** Generated ids *)

(** The decimal form of a number is made of digits; an underscore is not
    a digit. *)
Lemma pretty_N_char_digit (x : N) : Py.is_digit (pretty_N_char x) = true.
Proof. unfold pretty_N_char. repeat case_match; reflexivity. Qed.

Lemma pretty_N_go_digits (x : N) (s : string) :
  Py.all_digits s = true → Py.all_digits (pretty_N_go x s) = true.
Proof.
  revert s. induction (N.lt_wf_0 x) as [x _ IH]. intros s Hs.
  destruct (decide (x = 0)%N) as [->|Hx].
  - by rewrite pretty_N_go_0.
  - rewrite pretty_N_go_step by lia.
    apply IH; [apply N.div_lt; lia|].
    cbn [Py.all_digits]. by rewrite pretty_N_char_digit, Hs.
Qed.

Lemma pretty_nat_digits (n : nat) : Py.all_digits (pretty n) = true.
Proof.
  unfold pretty, pretty_nat, pretty, pretty_N.
  case_decide; [reflexivity|]. by apply pretty_N_go_digits.
Qed.

Lemma all_digits_no_underscore (prefix rest : string) :
  Py.all_digits (prefix +:+ "_" +:+ rest) = false.
Proof.
  induction prefix as [|c prefix IH]; [reflexivity|].
  change (String c prefix +:+ "_" +:+ rest)
    with (String c (prefix +:+ "_" +:+ rest)).
  cbn [Py.all_digits]. rewrite IH. apply andb_false_r.
Qed.

(** Two ids that end with an underscore and a run of digits have the
    same run of digits when they are equal. *)
Lemma counter_suffix_inj (p1 p2 d1 d2 : string) :
  Py.all_digits d1 = true → Py.all_digits d2 = true →
  p1 +:+ "_" +:+ d1 = p2 +:+ "_" +:+ d2 → d1 = d2.
Proof.
  intros H1 H2. revert p2.
  induction p1 as [|c p1 IH]; intros [|c' p2] Heq.
  - change (String "_" d1 = String "_" d2) in Heq. by injection Heq.
  - change (String "_" d1 = String c' (p2 +:+ "_" +:+ d2)) in Heq.
    injection Heq as _ Heq. rewrite Heq, all_digits_no_underscore in H1.
    discriminate.
  - change (String c (p1 +:+ "_" +:+ d1) = String "_" d2) in Heq.
    injection Heq as _ Heq. rewrite <- Heq, all_digits_no_underscore in H2.
    discriminate.
  - change (String c (p1 +:+ "_" +:+ d1) = String c' (p2 +:+ "_" +:+ d2))
      in Heq.
    injection Heq as _ Heq. by apply (IH p2).
Qed.

(** In a catalogue whose ids are numbered below its size, the id built
    from the size is free, and entering it keeps the ids numbered. *)
Lemma numbered_id_is_fresh {A : Type} (catalogue : gmap string A)
    (prefix : string) :
  ids_numbered catalogue →
  catalogue !! (prefix +:+ "_" +:+ pretty (size catalogue)) = None.
Proof.
  intros Hnum.
  destruct (catalogue !! (prefix +:+ "_" +:+ pretty (size catalogue)))
    as [x|] eqn:Hlook; [|reflexivity].
  destruct (Hnum _ (mk_is_Some _ _ Hlook)) as (p & n & Heq & Hlt).
  apply counter_suffix_inj in Heq; [|apply pretty_nat_digits..].
  apply (inj pretty) in Heq. lia.
Qed.

Lemma ids_numbered_insert {A : Type} (catalogue : gmap string A)
    (prefix : string) (x : A) :
  ids_numbered catalogue →
  ids_numbered (<[prefix +:+ "_" +:+ pretty (size catalogue) := x]> catalogue).
Proof.
  intros Hnum id Hid.
  rewrite map_size_insert_None by by apply numbered_id_is_fresh.
  destruct (decide (id = prefix +:+ "_" +:+ pretty (size catalogue)))
    as [->|Hne].
  - exists prefix, (size catalogue). split; [reflexivity|lia].
  - rewrite lookup_insert_ne in Hid by done.
    destruct (Hnum id Hid) as (p & n & -> & Hlt).
    exists p, n. split; [reflexivity|lia].
Qed.

Lemma ids_numbered_empty {A : Type} : ids_numbered (∅ : gmap string A).
Proof. intros id [x Hx]. by rewrite lookup_empty in Hx. Qed.
(** ** Quiet methods *)

Lemma same_world_refl s : same_world s s.
Proof. by repeat split. Qed.

Lemma same_world_trans s1 s2 s3 :
  same_world s1 s2 → same_world s2 s3 → same_world s1 s3.
Proof.
  intros (? & ? & ? & ? & ?) (? & ? & ? & ? & ?).
  repeat split; congruence.
Qed.

Lemma item_ids_added_app t1 t2 :
  item_ids_added (t1 ++ t2) = item_ids_added t1 ++ item_ids_added t2.
Proof. apply omap_app. Qed.

Lemma npc_ids_added_app t1 t2 :
  npc_ids_added (t1 ++ t2) = npc_ids_added t1 ++ npc_ids_added t2.
Proof. apply omap_app. Qed.

Lemma quiet_ret {A : Type} (a : A) : quiet (ret a).
Proof. intros s. by repeat split. Qed.

Lemma quiet_get : quiet get.
Proof. intros s. by repeat split. Qed.

Lemma quiet_raise {A : Type} (e : exn) : quiet (raise (A := A) e).
Proof. intros s. by repeat split. Qed.

Lemma quiet_called (c : Call) : quiet (called c).
Proof. intros s. by repeat split. Qed.

Lemma quiet_lift {A : Type} (r : outcome A) : quiet (lift r).
Proof. intros s. by repeat split. Qed.

Lemma quiet_subscript {A : Type} (key : string) (field : option A) :
  quiet (subscript key field).
Proof. destruct field; [apply quiet_ret | apply quiet_raise]. Qed.

Lemma quiet_history f : quiet (modify (set_conversation_history f)).
Proof. intros s. by repeat split. Qed.

Lemma quiet_bind {A B : Type} (m : M A) (f : A → M B) :
  quiet m → (∀ a, quiet (f a)) → quiet (bind m f).
Proof.
  intros Hm Hf s. destruct (Hm s) as (Hw & Hi & Hn).
  unfold bind. destruct (outcome_of (m s)) as [a|e].
  - destruct (Hf a (state_of (m s))) as (Hw' & Hi' & Hn').
    cbn [state_of trace_of].
    rewrite item_ids_added_app, npc_ids_added_app, Hi, Hn, Hi', Hn'.
    split; [by eapply same_world_trans|done].
  - done.
Qed.

(** Proof search for quietness: through the binds, and by cases on what
    a method branches on. *)
Ltac quiet_step :=
  first
    [ apply quiet_ret | apply quiet_get | apply quiet_raise
    | apply quiet_called | apply quiet_lift | apply quiet_subscript
    | apply quiet_history
    | apply quiet_bind; [|intros ?]
    | match goal with
      | |- quiet (let _ := _ in _) => cbv zeta
      | |- quiet (match ?x with _ => _ end) => destruct x
      end ].

Ltac quiet := repeat quiet_step.

Section Quiet.
Context (env : Env).

Lemma quiet_names_of_npcs s ids : quiet (names_of_npcs s ids).
Proof. induction ids as [|i rest IH]; cbn [names_of_npcs]; quiet; apply IH. Qed.

Lemma quiet_inventory_list s ids : quiet (inventory_list s ids).
Proof. induction ids as [|i rest IH]; cbn [inventory_list]; quiet; apply IH. Qed.

Lemma quiet_look o args : quiet (do_look env o args).
Proof. unfold do_look, get_ai_enhanced_look_description. quiet. Qed.

Lemma quiet_examine o args : quiet (do_examine env o args).
Proof. unfold do_examine. quiet. Qed.

Lemma quiet_inventory : quiet do_inventory.
Proof. unfold do_inventory. quiet; apply quiet_inventory_list. Qed.

Lemma quiet_talk o args : quiet (do_talk env o args).
Proof.
  unfold do_talk. quiet; apply quiet_names_of_npcs.
Qed.

End Quiet.
(** ** Taking and dropping: the effect on the state *)

Lemma first_match_found {A : Type} (matches : A → outcome bool)
    (catalogue : gmap string A) (ids : list string) (d : A) :
  first_match matches catalogue ids = Returned (Some d) →
  ∃ key, key ∈ ids ∧ catalogue !! key = Some d
         ∧ matches d = Returned true.
Proof.
  induction ids as [|i rest IH]; [discriminate|].
  cbn [first_match].
  destruct (catalogue !! i) as [x|] eqn:Hx.
  - destruct (matches x) as [[|]|e] eqn:Hm; cbn [and_then].
    + intros [= <-]. exists i. split_and!; [left | done | done].
    + intros H. destruct (IH H) as (key & ? & ? & ?).
      exists key. split_and!; [by right | done | done].
    + discriminate.
  - intros H. destruct (IH H) as (key & ? & ? & ?).
    exists key. split_and!; [by right | done | done].
Qed.

Lemma get_item_in_location_found s target item :
  get_item_in_location s target = Returned (Some item) →
  ∃ location key,
    locations s !! _coords_to_str (current_coords s) = Some location
    ∧ key ∈ loc_items location
    ∧ items s !! key = Some item.
Proof.
  unfold get_item_in_location.
  destruct (locations s !! _coords_to_str (current_coords s))
    as [location|]; [|discriminate].
  intros H. apply first_match_found in H as (key & ? & ? & _). eauto.
Qed.

Lemma get_item_in_inventory_found s target item :
  get_item_in_inventory s target = Returned (Some item) →
  ∃ key, key ∈ player_inventory s ∧ items s !! key = Some item.
Proof.
  unfold get_item_in_inventory.
  intros H. apply first_match_found in H as (key & ? & ? & _). eauto.
Qed.

Ltac unchanged :=
  run; refine (conj eq_refl (conj eq_refl (or_introl eq_refl))).

(** Either "take" leaves the state alone, or it found an item of the
    catalogue in the current location, removed the id the item carries
    from the location's list and appended it to the inventory. *)
Lemma do_take_effect args s :
  let r := do_take args s in
  let here := _coords_to_str (current_coords s) in
  item_ids_added (trace_of r) = [] ∧ npc_ids_added (trace_of r) = []
  ∧ (state_of r = s
     ∨ ∃ location key item id,
         locations s !! here = Some location
         ∧ key ∈ loc_items location
         ∧ items s !! key = Some item
         ∧ item_id item = Some id
         ∧ state_of r
           = set_player_inventory (λ inventory, inventory ++ [id])
               (if Py.mem id (loc_items location)
                then set_locations
                       (insert here (with_items (remove_first id) location)) s
                else s)).
Proof.
  intros r here. subst r here. unfold do_take.
  rewrite (bind_returned _ _ _ s) by reflexivity.
  cbn [get outcome_of state_of trace_of app].
  destruct (get_item_in_location s (Py.join " " args))
    as [[item|]|e] eqn:Hfound; [|unchanged..].
  run. cbn [app].
  unfold if_item. destruct (item_truthy item); [|unchanged].
  destruct (negb _).
  { destruct (item_name item); unchanged. }
  destruct (item_id item) as [id|] eqn:Hid; [|unchanged].
  apply get_item_in_location_found in Hfound
    as (location & key & Hhere & Hkey & Hitem).
  run. rewrite Hhere. run.
  destruct (Py.mem id (loc_items location)) eqn:Hmem; run;
    destruct (item_name item); run;
    (split_and!; [done | done |]);
    right; exists location, key, item, id; rewrite Hmem;
    split_and!; first [done | reflexivity].
Qed.

Lemma do_drop_effect args s :
  let r := do_drop args s in
  let here := _coords_to_str (current_coords s) in
  item_ids_added (trace_of r) = [] ∧ npc_ids_added (trace_of r) = []
  ∧ (state_of r = s
     ∨ ∃ location key item id,
         locations s !! here = Some location
         ∧ key ∈ player_inventory s
         ∧ items s !! key = Some item
         ∧ item_id item = Some id
         ∧ state_of r
           = set_locations
               (insert here (with_items (λ l, l ++ [id]) location))
               (if Py.mem id (player_inventory s)
                then set_player_inventory (remove_first id) s
                else s)).
Proof.
  intros r here. subst r here. unfold do_drop.
  rewrite (bind_returned _ _ _ s) by reflexivity.
  cbn [get outcome_of state_of trace_of app].
  destruct (get_item_in_inventory s (Py.join " " args))
    as [[item|]|e] eqn:Hfound; [|unchanged..].
  run. cbn [app].
  unfold if_item. destruct (item_truthy item); [|unchanged].
  destruct (item_id item) as [id|] eqn:Hid; [|unchanged].
  apply get_item_in_inventory_found in Hfound as (key & Hkey & Hitem).
  run.
  destruct (locations s !! _coords_to_str (current_coords s))
    as [location|] eqn:Hhere; [|unchanged].
  run.
  destruct (Py.mem id (player_inventory s)) eqn:Hmem; run;
    destruct (item_name item); run;
    (split_and!; [done | done |]);
    right; exists location, key, item, id; rewrite Hmem;
    split_and!; first [done | reflexivity].
Qed.
(** ** The invariant of the engine state *)

Lemma located_insert_fresh grid key location :
  grid !! key = None →
  located (<[key := location]> grid) ≡ₚ loc_items location ++ located grid.
Proof.
  intros Hfree. unfold located.
  rewrite map_to_list_insert by done. by rewrite bind_cons.
Qed.

Lemma located_lookup grid key location :
  grid !! key = Some location →
  located grid ≡ₚ loc_items location ++ located (delete key grid).
Proof.
  intros Hin. unfold located.
  rewrite <- (map_to_list_delete grid key location) by done.
  by rewrite bind_cons.
Qed.

Lemma located_update grid key location :
  located (<[key := location]> grid)
  ≡ₚ loc_items location ++ located (delete key grid).
Proof.
  rewrite <- insert_delete_eq.
  apply located_insert_fresh, lookup_delete_eq.
Qed.

Lemma located_empty : located ∅ = [].
Proof. unfold located. by rewrite map_to_list_empty. Qed.

(** An id lies in some location of the grid when it is among the ids
    located. *)
Lemma elem_of_located grid id :
  id ∈ located grid
  ↔ ∃ key location, grid !! key = Some location ∧ id ∈ loc_items location.
Proof.
  unfold located. rewrite list_elem_of_bind. split.
  - intros ([key location] & Hid & Hentry).
    apply elem_of_map_to_list in Hentry. eauto.
  - intros (key & location & Hentry & Hid).
    exists (key, location). split; [done|]. by apply elem_of_map_to_list.
Qed.

Lemma remove_first_perm id l : id ∈ l → l ≡ₚ id :: remove_first id l.
Proof.
  induction l as [|x l IH]; [by intros ?%elem_of_nil|].
  cbn [remove_first]. destruct (String.eqb_spec id x) as [->|Hne].
  - done.
  - intros [?|Hin]%elem_of_cons; [done|].
    rewrite (IH Hin) at 1. apply perm_swap.
Qed.

Lemma mem_true id l : id ∈ l → Py.mem id l = true.
Proof. intros. by apply bool_decide_eq_true. Qed.

(** The invariant looks at the catalogues and at the ids held, in any
    order. *)
Lemma invariant_perm s s' :
  invariant s →
  items s' = items s →
  npcs s' = npcs s →
  holders s' ≡ₚ holders s →
  invariant s'.
Proof.
  intros [Hids Hnamed Hitems Hnpcs Hnodup Hknown] Hi Hn Hperm.
  split; rewrite ?Hi, ?Hn; try done.
  - by rewrite Hperm.
  - intros id. rewrite Hperm. apply Hknown.
Qed.

Lemma invariant_init jlpt_level : invariant (init jlpt_level).
Proof.
  split; cbn [init items npcs].
  - intros key item H. by rewrite lookup_empty in H.
  - intros key item H. by rewrite lookup_empty in H.
  - apply ids_numbered_empty.
  - apply ids_numbered_empty.
  - unfold holders. cbn [init player_inventory locations].
    rewrite located_empty. constructor.
  - intros id. unfold holders. cbn [init player_inventory locations].
    rewrite located_empty. by intros ?%elem_of_nil.
Qed.

(** "take" and "drop" move an id between the inventory and the item list
    of the current location: the ids held are the same. *)
Lemma do_take_invariant args s :
  invariant s → invariant (state_of (do_take args s)).
Proof.
  intros Hinv.
  destruct (do_take_effect args s) as (_ & _ & [-> | Hmoved]); [done|].
  destruct Hmoved as (location & key & item & id & Hhere & Hkey & Hitem
                      & Hid & ->).
  rewrite (inv_item_ids s Hinv key item Hitem) in Hid.
  injection Hid as <-. rewrite (mem_true key _ Hkey).
  apply (invariant_perm s); [done..|].
  unfold holders. cbn [set_player_inventory set_locations player_inventory
                       locations].
  rewrite located_update, (located_lookup _ _ _ Hhere).
  cbn [with_items loc_items].
  rewrite (remove_first_perm key (loc_items location) Hkey) at 2.
  rewrite <- !app_assoc. apply Permutation_app_head.
  cbn [app]. done.
Qed.

Lemma do_drop_invariant args s :
  invariant s → invariant (state_of (do_drop args s)).
Proof.
  intros Hinv.
  destruct (do_drop_effect args s) as (_ & _ & [-> | Hmoved]); [done|].
  destruct Hmoved as (location & key & item & id & Hhere & Hkey & Hitem
                      & Hid & ->).
  rewrite (inv_item_ids s Hinv key item Hitem) in Hid.
  injection Hid as <-. rewrite (mem_true key _ Hkey).
  apply (invariant_perm s); [done..|].
  unfold holders. cbn [set_player_inventory set_locations player_inventory
                       locations].
  rewrite located_update, (located_lookup _ _ _ Hhere).
  cbn [with_items loc_items].
  rewrite (remove_first_perm key (player_inventory s) Hkey) at 2.
  rewrite (Permutation_app_comm (loc_items location) [key]).
  cbn [app]. symmetry. apply Permutation_middle.
Qed.
(** ** Steps that keep the invariant *)

Lemma sound_step_same_holdings s s' trace :
  invariant s →
  locations s' = locations s →
  items s' = items s →
  npcs s' = npcs s →
  player_inventory s' = player_inventory s →
  item_ids_added trace = [] → npc_ids_added trace = [] →
  sound_step s s' trace.
Proof.
  intros Hinv Hgrid Hitems Hnpcs Hinventory Hi Hn.
  unfold sound_step. rewrite Hi, Hn, Hitems, Hnpcs.
  split_and!; try done.
  - apply (invariant_perm s); [done..|].
    unfold holders. by rewrite Hgrid, Hinventory.
  - constructor.
  - constructor.
  - by intros id ?%elem_of_nil.
  - by intros id ?%elem_of_nil.
Qed.

Lemma sound_step_quiet s s' trace :
  invariant s → same_world s s' →
  item_ids_added trace = [] → npc_ids_added trace = [] →
  sound_step s s' trace.
Proof.
  intros Hinv (? & ? & ? & ? & _) Hi Hn.
  by apply sound_step_same_holdings.
Qed.

Lemma sound_step_trans s1 s2 s3 t1 t2 :
  sound_step s1 s2 t1 → sound_step s2 s3 t2 → sound_step s1 s3 (t1 ++ t2).
Proof.
  intros (_ & Hi1 & Hn1 & Hfi1 & Hfn1 & Hmi1 & Hmn1)
         (Hinv & Hi2 & Hn2 & Hfi2 & Hfn2 & Hmi2 & Hmn2).
  unfold sound_step.
  rewrite item_ids_added_app, npc_ids_added_app.
  split_and!; [done| | | | |by auto|by auto].
  - apply NoDup_app. split_and!; [done| |done].
    intros id Hin1 Hin2. destruct (Hfi1 id Hin1) as [_ [x Hx]].
    destruct (Hfi2 id Hin2) as [Hnone _]. congruence.
  - apply NoDup_app. split_and!; [done| |done].
    intros id Hin1 Hin2. destruct (Hfn1 id Hin1) as [_ [x Hx]].
    destruct (Hfn2 id Hin2) as [Hnone _]. congruence.
  - intros id [Hin|Hin]%elem_of_app.
    + destruct (Hfi1 id Hin). auto.
    + destruct (Hfi2 id Hin) as [Hnone ?]. split; [|done].
      destruct (items s1 !! id) eqn:Hs1; [|done].
      destruct (Hmi1 id (mk_is_Some _ _ Hs1)). congruence.
  - intros id [Hin|Hin]%elem_of_app.
    + destruct (Hfn1 id Hin). auto.
    + destruct (Hfn2 id Hin) as [Hnone ?]. split; [|done].
      destruct (npcs s1 !! id) eqn:Hs1; [|done].
      destruct (Hmn1 id (mk_is_Some _ _ Hs1)). congruence.
Qed.

(** Entering a new item and a new NPC in the catalogues is a sound
    step, whether the location that lists the item is then stored (the
    item is held by it) or not (the item is held by nothing): [held] is
    what the step adds to the ids held. *)
Lemma sound_step_catalogued s s' trace key new_items held :
  invariant s →
  holders s' ≡ₚ held ++ holders s →
  held = [] ∨ held = new_items →
  (new_items = []
   ∧ items s' = items s
   ∧ item_ids_added trace = [])
  ∨ (∃ data,
       let id := ("item_" +:+ key) +:+ "_" +:+ pretty (size (items s)) in
       new_items = [id]
       ∧ items s' = <[id := data]> (items s)
       ∧ item_id data = Some id
       ∧ is_Some (item_name data)
       ∧ item_ids_added trace = [id]) →
  (npcs s' = npcs s ∧ npc_ids_added trace = [])
  ∨ (∃ data,
       let id := ("npc_" +:+ key) +:+ "_" +:+ pretty (size (npcs s)) in
       npcs s' = <[id := data]> (npcs s)
       ∧ npc_ids_added trace = [id]) →
  sound_step s s' trace.
Proof.
  intros [Hids Hnamed Hitems Hnpcs Hnodup Hknown] Hholders Hheld
         Hitem Hnpc.
  assert (Hnpc_part :
            ids_numbered (npcs s')
            ∧ NoDup (npc_ids_added trace)
            ∧ (∀ id, id ∈ npc_ids_added trace →
                     npcs s !! id = None ∧ is_Some (npcs s' !! id))
            ∧ (∀ id, is_Some (npcs s !! id) → is_Some (npcs s' !! id))).
  { destruct Hnpc as [[-> ->] | (data & -> & ->)].
    - split_and!; [done | constructor | by intros id ?%elem_of_nil | done].
    - pose proof (numbered_id_is_fresh (npcs s) ("npc_" +:+ key) Hnpcs)
        as Hfresh.
      split_and!.
      + by apply ids_numbered_insert.
      + apply NoDup_singleton.
      + intros id ->%list_elem_of_singleton. split; [done|].
        rewrite lookup_insert_eq. eauto.
      + intros id Hid. rewrite lookup_insert_is_Some. destruct (decide
          (("npc_" +:+ key) +:+ "_" +:+ pretty (size (npcs s)) = id)); auto. }
  destruct Hnpc_part as (Hnum' & Hnd' & Hfresh' & Hmono').
  destruct Hitem as [(Hnone & Hsame & Hlog)
                    | (data & Hone & Hnew & Hid & Hname & Hlog)].
  - assert (held = []) as -> by (by destruct Hheld as [->| ->]).
    cbn [app] in Hholders.
    unfold sound_step. rewrite Hlog, Hsame.
    split_and!; try done.
    + split; rewrite ?Hsame; try done.
      * by rewrite Hholders.
      * intros id. rewrite Hholders. apply Hknown.
    + constructor.
    + by intros id ?%elem_of_nil.
  - pose proof (numbered_id_is_fresh (items s) ("item_" +:+ key) Hitems)
      as Hfresh.
    set (new_id := ("item_" +:+ key) +:+ "_" +:+ pretty (size (items s)))
      in *.
    assert (Hnot_held : new_id ∉ holders s).
    { intros Hin%Hknown. rewrite Hfresh in Hin. by destruct Hin. }
    unfold sound_step. rewrite Hlog, Hnew.
    split_and!; try done.
    + split; rewrite ?Hnew; try done.
      * intros k item. rewrite lookup_insert.
        case_decide as Hk; [intros [= <-]; by rewrite <- Hk|by apply Hids].
      * intros k item. rewrite lookup_insert.
        case_decide as Hk; [by intros [= <-]|by apply Hnamed].
      * by apply ids_numbered_insert.
      * rewrite Hholders.
        destruct Hheld as [-> | ->]; [done|]. rewrite Hone.
        by constructor.
      * intros id. rewrite Hholders, lookup_insert_is_Some.
        destruct (decide (new_id = id)) as [->|Hne]; [auto|].
        intros Hin. right. split; [done|]. apply Hknown.
        destruct Hheld as [-> | ->]; [done|]. rewrite Hone in Hin.
        by apply elem_of_cons in Hin as [->|Hin].
    + apply NoDup_singleton.
    + intros id ->%list_elem_of_singleton. split; [done|].
      rewrite lookup_insert_eq. eauto.
    + intros id Hsome. rewrite lookup_insert_is_Some.
      destruct (decide (new_id = id)); auto.
Qed.

Section Steps.
Context (env : Env).

Lemma go_to_coords_sound_step o target s :
  invariant s →
  sound_step s (state_of (go_to_coords env o target s))
             (trace_of (go_to_coords env o target s)).
Proof.
  intros Hinv.
  destruct (go_to_coords_effect env o target s)
    as (Hp & [(stored & _ & ->)
             | (Hfree & new_items & Hitem & Hnpc & Hout)]).
  - by apply sound_step_same_holdings.
  - destruct (item_name_joins env o).
    + destruct Hout as (location & _ & Hgrid & _ & Hlist & _).
      apply (sound_step_catalogued _ _ _ (_coords_to_str target) new_items
               new_items); [done| |by right|done|done].
      unfold holders.
      rewrite Hgrid, Hp, (located_insert_fresh _ _ _ Hfree), Hlist.
      rewrite !app_assoc. apply Permutation_app_tail, Permutation_app_comm.
    + destruct Hout as (_ & Hgrid & _).
      apply (sound_step_catalogued _ _ _ (_coords_to_str target) new_items
               []); [done| |by left|done|done].
      unfold holders. by rewrite Hgrid, Hp.
Qed.

Lemma do_go_sound_step o verb args s :
  invariant s →
  sound_step s (state_of (do_go env o verb args s))
             (trace_of (do_go env o verb args s)).
Proof.
  intros Hinv.
  destruct (do_go_cases env o verb args s) as [[text ->] | (delta & _ & ->)].
  - by apply sound_step_quiet; [|apply same_world_refl|..].
  - rewrite move_runs. cbn [state_of trace_of].
    by apply go_to_coords_sound_step.
Qed.

Lemma quiet_sound_step {A : Type} (m : M A) s :
  quiet m → invariant s → sound_step s (state_of (m s)) (trace_of (m s)).
Proof.
  intros Hm Hinv. destruct (Hm s) as (Hsame & Hi & Hn).
  by apply sound_step_quiet.
Qed.

Lemma do_take_sound_step args s :
  invariant s →
  sound_step s (state_of (do_take args s)) (trace_of (do_take args s)).
Proof.
  intros Hinv. pose proof (do_take_invariant args s Hinv) as Hinv'.
  destruct (do_take_effect args s) as (Hi & Hn & Heffect).
  assert (Hitems : items (state_of (do_take args s)) = items s
                   ∧ npcs (state_of (do_take args s)) = npcs s).
  { destruct Heffect as [-> | (location & key & item & id & _ & _ & _ & _ & ->)];
      [done|]. by destruct (Py.mem id (loc_items location)). }
  destruct Hitems as [Hsi Hsn].
  unfold sound_step. rewrite Hi, Hn, Hsi, Hsn.
  split_and!;
    [ done | constructor | constructor
    | by intros id ?%elem_of_nil | by intros id ?%elem_of_nil
    | done | done ].
Qed.

Lemma do_drop_sound_step args s :
  invariant s →
  sound_step s (state_of (do_drop args s)) (trace_of (do_drop args s)).
Proof.
  intros Hinv. pose proof (do_drop_invariant args s Hinv) as Hinv'.
  destruct (do_drop_effect args s) as (Hi & Hn & Heffect).
  assert (Hitems : items (state_of (do_drop args s)) = items s
                   ∧ npcs (state_of (do_drop args s)) = npcs s).
  { destruct Heffect as [-> | (location & key & item & id & _ & _ & _ & _ & ->)];
      [done|]. by destruct (Py.mem id (player_inventory s)). }
  destruct Hitems as [Hsi Hsn].
  unfold sound_step. rewrite Hi, Hn, Hsi, Hsn.
  split_and!;
    [ done | constructor | constructor
    | by intros id ?%elem_of_nil | by intros id ?%elem_of_nil
    | done | done ].
Qed.

(** Every command is a sound step. *)
Lemma process_command_sound_step o command s :
  invariant s →
  sound_step s (state_of (process_command env o command s))
             (trace_of (process_command env o command s)).
Proof.
  intros Hinv. unfold process_command.
  destruct (Py.split (Py.lower command)) as [|verb args];
    [by apply quiet_sound_step; [apply quiet_raise|]|].
  repeat case_match;
    first [ by apply do_go_sound_step
          | by apply do_take_sound_step
          | by apply do_drop_sound_step
          | apply quiet_sound_step; [|done] ].
  all: first [ apply quiet_look | apply quiet_examine | apply quiet_inventory
             | apply quiet_talk | apply quiet_ret ].
Qed.

Lemma session_sound_step inputs s :
  invariant s →
  sound_step s (session env inputs s).1 (session env inputs s).2.
Proof.
  revert s. induction inputs as [|[o command] rest IH]; intros s Hinv.
  - cbn [session fst snd]. by apply sound_step_quiet; [|apply same_world_refl|..].
  - cbn [session].
    pose proof (process_command_sound_step o command s Hinv) as Hstep.
    pose proof (IH (state_of (process_command env o command s))
                   (proj1 Hstep)) as Hrest.
    destruct (session env rest (state_of (process_command env o command s)))
      as [s' trace]. cbn [fst snd] in *.
    by eapply sound_step_trans.
Qed.

End Steps.
(** ** Reachable states *)

Section Reachable.
Context (env : Env).

Lemma load_game_data_effect o jlpt_level :
  let r := load_game_data env o (init jlpt_level) in
  sound_step (init jlpt_level) (state_of r) (trace_of r)
  ∧ settled (state_of r).
Proof.
  intros r. subst r. unfold load_game_data.
  rewrite (bind_returned _ _ _ tt) by reflexivity.
  rewrite (bind_returned _ _ _ tt) by reflexivity.
  rewrite (bind_returned _ _ _ tt) by reflexivity.
  cbn [modify outcome_of state_of trace_of app].
  change (set_conversation_history (λ _, ∅)
            (set_npcs (λ _, ∅) (set_items (λ _, ∅) (init jlpt_level))))
    with (init jlpt_level).
  rewrite (bind_returned _ _ _ (init jlpt_level)) by reflexivity.
  cbn [get outcome_of state_of trace_of app].
  change (locations (init jlpt_level)) with (∅ : gmap string Location).
  rewrite lookup_empty.
  destruct (generate_location_data_effect env o (0, 0)
              "Quiet Shopping Street" (init jlpt_level))
    as (Hl & Hp & Hc & new_items & Hitem & Hnpc & Hout).
  destruct (item_name_joins env o).
  - destruct Hout as (location & Hr & Hlist & _).
    rewrite (bind_returned _ _ _ tt)
      by (rewrite (bind_returned _ _ _ _ Hr); reflexivity).
    rewrite (bind_returned _ _ _ _ Hr). run. rewrite !app_nil_r.
    split.
    + apply (sound_step_catalogued _ _ _ (_coords_to_str (0, 0)) new_items
               new_items); [apply invariant_init| |by right|done|done].
      unfold holders. run. rewrite Hl, Hp.
      change (locations (init jlpt_level)) with (∅ : gmap string Location).
      rewrite (located_insert_fresh _ _ _ (lookup_empty _)), Hlist.
      rewrite !app_assoc. apply Permutation_app_tail, Permutation_app_comm.
    + left. unfold placed. run. rewrite lookup_insert_eq. eauto.
  - destruct Hout as [Hout _].
    rewrite (bind_raised _ _ _ TypeError)
      by (rewrite (bind_raised _ _ _ _ Hout); reflexivity).
    rewrite (bind_raised _ _ _ _ Hout). run.
    split.
    + apply (sound_step_catalogued _ _ _ (_coords_to_str (0, 0)) new_items
               []); [apply invariant_init| |by left|done|done].
      unfold holders. by rewrite Hl, Hp.
    + right. by rewrite Hp.
Qed.

(** A command leaves the player on a location of the grid, when he was
    on one. *)
Lemma process_command_placed o command s :
  placed s → placed (state_of (process_command env o command s)).
Proof.
  intros Hplaced.
  assert (Hquiet : ∀ m : M Response, quiet m → placed (state_of (m s))).
  { intros m Hm. destruct (Hm s) as ((Hl & _ & _ & _ & Hc) & _).
    unfold placed. by rewrite Hl, Hc. }
  unfold process_command.
  destruct (Py.split (Py.lower command)) as [|verb args];
    [by apply Hquiet, quiet_raise|].
  repeat case_match;
    try (apply Hquiet;
         first [ apply quiet_look | apply quiet_examine
               | apply quiet_inventory | apply quiet_talk
               | apply quiet_ret ]).
  - (* go *)
    destruct (do_go_cases env o verb args s)
      as [[text ->] | (delta & _ & ->)]; [done|].
    destruct (move_effect env o delta s) as (Hgrows & _ & _ & Hraised).
    rewrite move_runs in *. cbn [state_of outcome_of] in *.
    destruct (go_to_coords_effect env o
                ((current_coords s).1 + delta.1,
                 (current_coords s).2 + delta.2) s)
      as (_ & [(stored & Hgrid & ->) | (Hgrid & new_items & _ & _ & Hout)]).
    + unfold placed. run. rewrite Hgrid. eauto.
    + destruct (item_name_joins env o).
      * destruct Hout as (location & _ & Hl & Hc & _).
        unfold placed. rewrite Hl, Hc, lookup_insert_eq. eauto.
      * destruct Hout as (_ & Hl & Hc & _).
        unfold placed. by rewrite Hl, Hc.
  - (* take *)
    destruct (do_take_effect args s)
      as (_ & _ & [-> | (location & key & item & id & Hhere & _ & _ & _ & ->)]);
      [done|].
    unfold placed. destruct (Py.mem id (loc_items location)); [|done].
    cbn [set_player_inventory set_locations locations current_coords].
    rewrite lookup_insert_eq. eauto.
  - (* drop *)
    destruct (do_drop_effect args s)
      as (_ & _ & [-> | (location & key & item & id & Hhere & _ & _ & _ & ->)]);
      [done|].
    unfold placed. cbn [set_locations locations current_coords].
    destruct (Py.mem id (player_inventory s));
      cbn [set_player_inventory locations current_coords];
      rewrite lookup_insert_eq; eauto.
Qed.

(** A command changes the inventory only when the player stands on a
    location. *)
Lemma process_command_inventory o command s :
  player_inventory (state_of (process_command env o command s))
  = player_inventory s
  ∨ placed s.
Proof.
  assert (Hquiet : ∀ m : M Response, quiet m →
                     player_inventory (state_of (m s)) = player_inventory s).
  { intros m Hm. by destruct (Hm s) as ((_ & _ & _ & Hp & _) & _). }
  unfold process_command.
  destruct (Py.split (Py.lower command)) as [|verb args];
    [by left; apply Hquiet, quiet_raise|].
  repeat case_match;
    try (left; apply Hquiet;
         first [ apply quiet_look | apply quiet_examine
               | apply quiet_inventory | apply quiet_talk
               | apply quiet_ret ]).
  - (* go *)
    left. destruct (do_go_cases env o verb args s)
      as [[text ->] | (delta & _ & ->)]; [done|].
    rewrite move_runs. cbn [state_of].
    by destruct (go_to_coords_effect env o
                   ((current_coords s).1 + delta.1,
                    (current_coords s).2 + delta.2) s) as [Hp _].
  - (* take *)
    destruct (do_take_effect args s)
      as (_ & _ & [-> | (location & key & item & id & Hhere & _)]);
      [by left|]. right. unfold placed. eauto.
  - (* drop *)
    destruct (do_drop_effect args s)
      as (_ & _ & [-> | (location & key & item & id & Hhere & _)]);
      [by left|]. right. unfold placed. eauto.
Qed.

Lemma process_command_settled o command s :
  settled s → settled (state_of (process_command env o command s)).
Proof.
  intros [Hplaced | Hempty].
  - left. by apply process_command_placed.
  - destruct (process_command_inventory o command s) as [Hsame | Hplaced].
    + right. by rewrite Hsame.
    + left. by apply process_command_placed.
Qed.

Lemma session_settled inputs s :
  settled s → settled (session env inputs s).1.
Proof.
  revert s. induction inputs as [|[o command] rest IH]; intros s Hsettled;
    [done|].
  cbn [session].
  pose proof (IH _ (process_command_settled o command s Hsettled)) as Hrest.
  by destruct (session env rest (state_of (process_command env o command s))).
Qed.

(** Over a whole lifetime: the final state satisfies the invariant, the
    ids reported are pairwise distinct and are keys of the final
    catalogues, and the player stands on a location or carries
    nothing. *)
Lemma lifetime_sound jlpt_level start inputs :
  let '(s, trace) := lifetime env jlpt_level start inputs in
  sound_step (init jlpt_level) s trace ∧ settled s.
Proof.
  unfold lifetime.
  destruct (load_game_data_effect start jlpt_level) as [Hload Hsettled].
  pose proof (session_sound_step env inputs _ (proj1 Hload)) as Hsession.
  pose proof (session_settled inputs _ Hsettled) as Hsettled'.
  destruct (session env inputs
              (state_of (load_game_data env start (init jlpt_level))))
    as [s trace]. cbn [fst snd] in *.
  split; [by eapply sound_step_trans|done].
Qed.

Lemma reachable_invariant s : reachable env s → invariant s ∧ settled s.
Proof.
  intros (jlpt_level & start & inputs & <-).
  pose proof (lifetime_sound jlpt_level start inputs) as H.
  destruct (lifetime env jlpt_level start inputs) as [s trace].
  destruct H as [(Hinv & _) Hsettled]. done.
Qed.

(** A session goes on where another one has stopped; so a command takes
    a reachable state to a reachable state. *)
Lemma session_app inputs more s :
  (session env (inputs ++ more) s).1
  = (session env more (session env inputs s).1).1.
Proof.
  revert s. induction inputs as [|[o command] rest IH]; intros s;
    [reflexivity|].
  cbn [app session]. specialize (IH (state_of (process_command env o command s))).
  destruct (session env (rest ++ more) _) as [s1 t1].
  destruct (session env rest _) as [s2 t2]. exact IH.
Qed.

Lemma reachable_step o command s :
  reachable env s → reachable env (state_of (process_command env o command s)).
Proof.
  intros (jlpt_level & start & inputs & <-).
  exists jlpt_level, start, (inputs ++ [(o, command)]).
  unfold lifetime. rewrite (surjective_pairing (session env (inputs ++ _) _)).
  rewrite (surjective_pairing (session env inputs _)).
  cbn [fst]. rewrite session_app. cbn [session fst]. reflexivity.
Qed.

End Reachable.

(** C9. Over a process lifetime (start-up, then any commands, whatever
    the world answers), the ids given to the items generated are pairwise
    distinct, and so are the ids given to the NPCs generated. Every id
    given is still a key of its catalogue at the end (nothing is deleted),
    and the ids of each catalogue end with a counter below the size of the
    catalogue, which is why the next id, built from the size, is new. *)
Theorem generated_ids_are_unique env jlpt_level start inputs :
  let '(s, trace) := lifetime env jlpt_level start inputs in
  NoDup (item_ids_added trace)
  ∧ NoDup (npc_ids_added trace)
  ∧ (∀ id, id ∈ item_ids_added trace → is_Some (items s !! id))
  ∧ (∀ id, id ∈ npc_ids_added trace → is_Some (npcs s !! id))
  ∧ ids_numbered (items s)
  ∧ ids_numbered (npcs s).
Proof.
  pose proof (lifetime_sound env jlpt_level start inputs) as H.
  destruct (lifetime env jlpt_level start inputs) as [s trace].
  destruct H as [(Hinv & Hi & Hn & Hfi & Hfn & _) _].
  split_and!; [done | done | | | apply Hinv | apply Hinv].
  - intros id Hid. by destruct (Hfi id Hid).
  - intros id Hid. by destruct (Hfn id Hid).
Qed.
(** ** Items that cannot be taken *)

Section Lookup.

(** A catalogued item that carries its id is a non-empty dict. *)
Lemma item_with_id_is_truthy item id :
  item_id item = Some id → item_truthy item = true.
Proof. intros H. unfold item_truthy. by rewrite H. Qed.

(** The scan raises at the first item of the list when the value under
    its "name" is not a string. *)
Lemma first_match_raises target catalogue id rest item type_name shown truth :
  catalogue !! id = Some item →
  is_Some (item_id item) →
  item_name item = Some (PyNotStr type_name shown truth) →
  first_match (item_matches target) catalogue (id :: rest)
  = Raised (AttributeError "lower").
Proof.
  intros Hitem [i Hid] Hname. cbn [first_match]. rewrite Hitem.
  unfold item_matches. rewrite Hid, Hname. reflexivity.
Qed.

End Lookup.

(** C10. A "take" that does not find an item that can be taken changes
    nothing: it makes no call and leaves the whole engine state as it
    was, the item list of the location, the inventory and the
    coordinates of the player included. When the lookup finds an item
    whose "can_be_taken" flag is false or absent, the command answers
    that the item seems fixed in place. But the lookup does not find
    every item that lies in the location: when the first item of the
    location has a value that is not a string under "name" (the client
    accepts such a reply), the lookup raises [AttributeError] at
    [.lower()], for every query, and the command raises it to its caller
    instead of answering. *)
Theorem fixed_item_is_not_taken env o command verb args s :
  reachable env s →
  Py.split (Py.lower command) = verb :: args →
  args ≠ [] →
  Py.mem verb ["take"; "get"; "取る"] = true →
  let r := process_command env o command s in
  let found := get_item_in_location s (Py.join " " args) in
  ((∀ item, found = Returned (Some item) →
            flag_truthy (default (PyBool false) (item_can_be_taken item))
            = false) →
   state_of r = s ∧ trace_of r = [])
  ∧ (∀ item,
       found = Returned (Some item) →
       item_can_be_taken item = None
       ∨ item_can_be_taken item = Some (PyBool false) →
       ∃ name,
         item_name item = Some name
         ∧ outcome_of r
           = Returned
               (RText ("You can't take the " +:+ text_str name +:+ " ("
                       +:+ text_str (default (PyStr "")
                                             (item_name_english item))
                       +:+ "). It seems fixed in place.")))
  ∧ (∀ location id rest item type_name shown truth,
       locations s !! _coords_to_str (current_coords s) = Some location →
       loc_items location = id :: rest →
       items s !! id = Some item →
       item_name item = Some (PyNotStr type_name shown truth) →
       outcome_of r = Raised (AttributeError "lower")).
Proof.
  intros Hreach Hsplit Hargs Hverb r found. subst r found.
  destruct (reachable_invariant env s Hreach) as [Hinv _].
  rewrite (process_command_take env o command verb args s) by assumption.
  unfold do_take. run.
  split_and!.
  - intros Hfixed.
    destruct (get_item_in_location s (Py.join " " args)) as [[item|]|e];
      run; [|done..].
    unfold if_item. destruct (item_truthy item); [|done].
    rewrite (Hfixed item eq_refl). cbn [negb].
    by destruct (item_name item).
  - intros item Hfound Hflag. rewrite Hfound. run.
    destruct (get_item_in_location_found s _ item Hfound)
      as (location & key & _ & _ & Hitem).
    destruct (inv_item_named s Hinv key item Hitem) as [name Hname].
    unfold if_item.
    rewrite (item_with_id_is_truthy item key (inv_item_ids s Hinv _ _ Hitem)).
    exists name. split; [done|].
    destruct Hflag as [-> | ->]; cbn [default flag_truthy negb id];
      by rewrite Hname.
  - intros location id rest item type_name shown truth Hhere Hlist Hitem
           Hname.
    unfold get_item_in_location. rewrite Hhere, Hlist.
    rewrite (first_match_raises _ _ id rest item type_name shown truth);
      [reflexivity | done | | done].
    rewrite (inv_item_ids s Hinv _ _ Hitem). eauto.
Qed.

Lemma fixed_item_is_not_taken_witness :
  (let r := process_command keyed_env kind_oracle "take Lantern"
              lantern_lane in
   outcome_of r
   = Returned (RText "You can't take the 灯籠 (Stone Lantern). It seems fixed in place.")
   ∧ state_of r = lantern_lane)
  ∧ (let r := process_command keyed_env kind_oracle "take Lantern"
                nameless_lane in
     outcome_of r = Raised (AttributeError "lower")
     ∧ state_of r = nameless_lane).
Proof.
  split.
  - destruct (fixed_item_is_not_taken keyed_env kind_oracle "take Lantern"
                "take" ["lantern"] lantern_lane)
      as (Hsame & Hfixed & _);
      [by exists "N5", kind_oracle, [] | reflexivity | discriminate
       | reflexivity |].
    split.
    + destruct (Hfixed lantern_here) as (name & Hname & Hout);
        [reflexivity | by right |].
      injection Hname as <-. exact Hout.
    + apply Hsame. intros item [= <-]. reflexivity.
  - destruct (fixed_item_is_not_taken keyed_env kind_oracle "take Lantern"
                "take" ["lantern"] nameless_lane)
      as (Hsame & _ & Hraises);
      [by exists "N5", forgetful_oracle, [] | reflexivity | discriminate
       | reflexivity |].
    split.
    + eapply (Hraises _ "item_0,0_0" []); reflexivity.
    + apply Hsame. intros item Hfound. discriminate Hfound.
Defined.

(** The words of a command are cut at every white space: a fixed item
    whose name holds an ideographic space is found under a part of its
    name, and not under the whole of it. *)
Example wide_space_in_name_ex :
  Py.split (Py.lower "take 石　灯籠") = ["take"; "石"; "灯籠"]
  ∧ Py.join " " ["石"; "灯籠"] = "石 灯籠"
  ∧ Py.contains "石 灯籠" (Py.lower "石　灯籠") = false
  ∧ Py.contains "石" (Py.lower "石　灯籠") = true.
Proof. repeat split; reflexivity. Qed.
(** ** Ownership of items *)

(** Under the invariant an id has at most one container, and an id that
    has one is catalogued. *)
Lemma invariant_one_container s id c c' :
  invariant s → holds s c id → holds s c' id → c = c'.
Proof.
  intros Hinv Hc Hc'.
  pose proof (inv_held_once s Hinv) as Hnodup.
  unfold holders in Hnodup.
  apply NoDup_app in Hnodup as (_ & Hdisjoint & Hlocated).
  assert (Hmixed : ∀ key, holds s Inventory id →
                          holds s (AtLocation key) id → False).
  { intros key Hinventory (location & ? & ?).
    apply (Hdisjoint id Hinventory), elem_of_located. eauto. }
  destruct c as [|key], c' as [|key']; [done| | |].
  - by destruct (Hmixed key').
  - by destruct (Hmixed key).
  - destruct Hc as (location & Hkey & Hid).
    destruct Hc' as (location' & Hkey' & Hid').
    destruct (decide (key' = key)) as [->|Hne]; [done|]. exfalso.
    rewrite (located_lookup _ _ _ Hkey) in Hlocated.
    apply NoDup_app in Hlocated as (_ & Hapart & _).
    apply (Hapart id Hid), elem_of_located.
    exists key', location'. split; [|done].
    by rewrite lookup_delete_ne.
Qed.

Lemma invariant_held_catalogued s id c :
  invariant s → holds s c id → is_Some (items s !! id).
Proof.
  intros Hinv Hc. apply (inv_held_known s Hinv). unfold holders.
  apply elem_of_app. destruct c as [|key]; [by left|right].
  apply elem_of_located. destruct Hc as (location & ? & ?). eauto.
Qed.

Section Parsing.
Context (env : Env).

(** A command whose first word is "go", "move" or "行く" runs the go
    branch. *)
Lemma process_command_go o command verb args s :
  Py.split (Py.lower command) = verb :: args →
  Py.mem verb ["go"; "move"; "行く"] = true →
  process_command env o command s = do_go env o verb args s.
Proof.
  intros Hsplit Hverb. unfold process_command. rewrite Hsplit.
  apply bool_decide_eq_true in Hverb.
  repeat (apply elem_of_cons in Hverb as [->|Hverb]); [reflexivity..|].
  by apply elem_of_nil in Hverb.
Qed.

End Parsing.

(** C8. In every state the engine can be in between two commands, no
    item has two containers, and an item that has a container is in the
    catalogue. A "take" that finds an item that can be taken answers
    "You take ...", after which the id of the item is in the inventory
    and not in the item list of the current location; a "drop" that
    finds an item of the inventory answers "You drop ...", after which
    the id is in the item list of the current location and not in the
    inventory. But a catalogued item need not have a container: a move
    to a new cell whose item reply has a value that is not a string
    under "name_english" raises [TypeError] after the item has been
    entered in the catalogue and before the cell that should list it is
    stored; in the state the engine is left in, which it serves the next
    command from, that item is in the catalogue and in no container. *)
Theorem ownership_is_exclusive env s :
  reachable env s →
  let here := _coords_to_str (current_coords s) in
  (∀ id c c', holds s c id → holds s c' id → c = c')
  ∧ (∀ id c, holds s c id → is_Some (items s !! id))
  ∧ (∀ o command verb args item,
       Py.split (Py.lower command) = verb :: args →
       args ≠ [] →
       Py.mem verb ["take"; "get"; "取る"] = true →
       get_item_in_location s (Py.join " " args) = Returned (Some item) →
       flag_truthy (default (PyBool false) (item_can_be_taken item)) = true →
       let r := process_command env o command s in
       ∃ id name,
         item_id item = Some id
         ∧ outcome_of r
           = Returned
               (RText ("You take the " +:+ text_str name +:+ " ("
                       +:+ text_str (default (PyStr "")
                                             (item_name_english item))
                       +:+ ")."))
         ∧ holds (state_of r) Inventory id
         ∧ ¬ holds (state_of r) (AtLocation here) id)
  ∧ (∀ o command verb args item,
       Py.split (Py.lower command) = verb :: args →
       args ≠ [] →
       Py.mem verb ["drop"; "捨てる"] = true →
       get_item_in_inventory s (Py.join " " args) = Returned (Some item) →
       let r := process_command env o command s in
       ∃ id name,
         item_id item = Some id
         ∧ outcome_of r
           = Returned
               (RText ("You drop the " +:+ text_str name +:+ " ("
                       +:+ text_str (default (PyStr "")
                                             (item_name_english item))
                       +:+ ")."))
         ∧ holds (state_of r) (AtLocation here) id
         ∧ ¬ holds (state_of r) Inventory id)
  ∧ (∀ o command verb word rest delta,
       Py.split (Py.lower command) = verb :: word :: rest →
       Py.mem verb ["go"; "move"; "行く"] = true →
       direction_map (Py.lower word) = Some delta →
       let target := ((current_coords s).1 + delta.1,
                      (current_coords s).2 + delta.2) in
       locations s !! _coords_to_str target = None →
       item_name_joins env o = false →
       let r := process_command env o command s in
       let id := ("item_" +:+ _coords_to_str target) +:+ "_"
                 +:+ pretty (size (items s)) in
       outcome_of r = Raised TypeError
       ∧ reachable env (state_of r)
       ∧ is_Some (items (state_of r) !! id)
       ∧ ∀ c, ¬ holds (state_of r) c id).
Proof.
  intros Hreach here.
  destruct (reachable_invariant env s Hreach) as [Hinv Hsettled].
  split_and!.
  - intros id c c'. by apply invariant_one_container.
  - intros id c. by apply invariant_held_catalogued.
  - intros o command verb args item Hsplit Hargs Hverb Hfound Htakable r.
    subst r. rewrite (process_command_take env o command verb args s)
      by assumption.
    pose proof (do_take_invariant args s Hinv) as Hinv'.
    destruct (get_item_in_location_found s _ item Hfound)
      as (location & key & Hhere & Hkey & Hitem).
    pose proof (inv_item_ids s Hinv key item Hitem) as Hid.
    destruct (inv_item_named s Hinv key item Hitem) as [name Hname].
    assert (Hrun : do_take args s
                   = mkResult
                       (Returned
                          (RText ("You take the " +:+ text_str name +:+ " ("
                                  +:+ text_str
                                        (default (PyStr "")
                                                 (item_name_english item))
                                  +:+ ").")))
                       (set_player_inventory (λ inventory, inventory ++ [key])
                          (set_locations
                             (insert here
                                (with_items (remove_first key) location)) s))
                       []).
    { unfold do_take. run. rewrite Hfound. run. unfold if_item.
      rewrite (item_with_id_is_truthy item key Hid).
      rewrite Htakable. cbn [negb]. rewrite Hid. run.
      rewrite Hhere. run. rewrite (mem_true key _ Hkey). run.
      rewrite Hname. run. reflexivity. }
    rewrite Hrun in Hinv' |- *. cbn [outcome_of state_of].
    assert (Hin : holds (set_player_inventory (λ inventory, inventory ++ [key])
                           (set_locations
                              (insert here
                                 (with_items (remove_first key) location)) s))
                        Inventory key).
    { cbn [holds set_player_inventory player_inventory].
      apply elem_of_app. right. by left. }
    exists key, name. split_and!; [done | done | done |].
    intros Hthere.
    by pose proof (invariant_one_container _ key _ _ Hinv' Hin Hthere).
  - intros o command verb args item Hsplit Hargs Hverb Hfound r.
    subst r. rewrite (process_command_drop env o command verb args s)
      by assumption.
    pose proof (do_drop_invariant args s Hinv) as Hinv'.
    destruct (get_item_in_inventory_found s _ item Hfound)
      as (key & Hkey & Hitem).
    pose proof (inv_item_ids s Hinv key item Hitem) as Hid.
    destruct (inv_item_named s Hinv key item Hitem) as [name Hname].
    destruct Hsettled as [[start Hstart] | Hempty];
      [|rewrite Hempty in Hkey; by apply elem_of_nil in Hkey].
    fold here in Hstart.
    assert (Hrun : do_drop args s
                   = mkResult
                       (Returned
                          (RText ("You drop the " +:+ text_str name +:+ " ("
                                  +:+ text_str
                                        (default (PyStr "")
                                                 (item_name_english item))
                                  +:+ ").")))
                       (set_locations
                          (insert here
                             (with_items (λ l, l ++ [key]) start))
                          (set_player_inventory (remove_first key) s))
                       []).
    { unfold do_drop. run. rewrite Hfound. run. unfold if_item.
      rewrite (item_with_id_is_truthy item key Hid).
      rewrite Hid. run. fold here. rewrite Hstart. run.
      rewrite (mem_true key _ Hkey). run.
      rewrite Hname. run. reflexivity. }
    rewrite Hrun in Hinv' |- *. cbn [outcome_of state_of].
    assert (Hthere : holds (set_locations
                              (insert here
                                 (with_items (λ l, l ++ [key]) start))
                              (set_player_inventory (remove_first key) s))
                           (AtLocation here) key).
    { cbn [holds set_locations locations]. eexists. split.
      - apply lookup_insert_eq.
      - cbn [with_items loc_items]. apply elem_of_app. right. by left. }
    exists key, name. split_and!; [done | done | done |].
    intros Hheld.
    by pose proof (invariant_one_container _ key _ _ Hinv' Hheld Hthere).
  - intros o command verb word rest delta Hsplit Hverb Hdir target Hnew
           Hjoin r id.
    assert (Hreach' : reachable env (state_of r))
      by (by apply reachable_step).
    subst r.
    rewrite (process_command_go env o command verb (word :: rest) s)
      in * by assumption.
    rewrite (do_go_moves env o verb word rest delta s Hverb Hdir) in *.
    rewrite move_runs in *. fold target in Hreach' |- *.
    cbn [outcome_of state_of] in *.
    destruct (go_to_coords_effect env o target s)
      as (Hp & [(stored & Hstored & _)
               | (_ & new_items & Hitem & _ & Hout)]); [congruence|].
    rewrite Hjoin in Hout. destruct Hout as (Hr & Hl & _ & Hsome).
    destruct Hitem as [(-> & _) | (data & _ & Hitems & _)]; [done|].
    fold id in Hitems. rewrite Hr.
    split_and!; [done | done | |].
    + rewrite Hitems, lookup_insert_eq. eauto.
    + intros c Hheld.
      assert (Hbefore : holds s c id).
      { destruct c as [|key]; cbn [holds] in *.
        - by rewrite <- Hp.
        - by rewrite <- Hl. }
      pose proof (invariant_held_catalogued s id c Hinv Hbefore) as [x Hx].
      pose proof (numbered_id_is_fresh (items s)
                    ("item_" +:+ _coords_to_str target)
                    (inv_items_numbered s Hinv)) as Hfresh.
      fold id in Hfresh. congruence.
Qed.

Lemma ownership_is_exclusive_witness :
  let taken := process_command keyed_env generous_oracle "take crane"
                 crane_street in
  let dropped := process_command keyed_env generous_oracle "drop crane"
                   crane_in_hand in
  let raised := process_command keyed_env careless_oracle "go north"
                  lantern_lane in
  (holds (state_of taken) Inventory "item_0,0_0"
   ∧ ¬ holds (state_of taken) (AtLocation "0,0") "item_0,0_0")
  ∧ (holds (state_of dropped) (AtLocation "0,0") "item_0,0_0"
     ∧ ¬ holds (state_of dropped) Inventory "item_0,0_0")
  ∧ (is_Some (items (state_of raised) !! "item_0,1_1")
     ∧ ∀ c, ¬ holds (state_of raised) c "item_0,1_1").
Proof.
  intros taken dropped raised. subst taken dropped raised.
  refine (conj _ (conj _ _)).
  - destruct (ownership_is_exclusive keyed_env crane_street)
      as (_ & _ & Htake & _).
    { exists "N5", generous_oracle, []. reflexivity. }
    destruct (Htake generous_oracle "take crane" "take" ["crane"] crane_here)
      as (id & name & Hid & _ & Hin & Hout);
      [reflexivity | discriminate | reflexivity | reflexivity | reflexivity |].
    injection Hid as <-. split; assumption.
  - destruct (ownership_is_exclusive keyed_env crane_in_hand)
      as (_ & _ & _ & Hdrop & _).
    { exists "N5", generous_oracle, [(generous_oracle, "take crane")].
      reflexivity. }
    destruct (Hdrop generous_oracle "drop crane" "drop" ["crane"] crane_here)
      as (id & name & Hid & _ & Hin & Hout);
      [reflexivity | discriminate | reflexivity | reflexivity |].
    injection Hid as <-. split; assumption.
  - destruct (ownership_is_exclusive keyed_env lantern_lane)
      as (_ & _ & _ & _ & Hraise).
    { exists "N5", kind_oracle, []. reflexivity. }
    destruct (Hraise careless_oracle "go north" "go" "north" [] (0, 1))
      as (_ & _ & Hcat & Hnone);
      [reflexivity | reflexivity | reflexivity | reflexivity | reflexivity |].
    split; [exact Hcat | exact Hnone].
Defined.

Example lifetime_ids_ex :
  item_ids_added
    (lifetime keyed_env "N5" generous_oracle
       [(generous_oracle, "go north"); (generous_oracle, "go south");
        (generous_oracle, "go east")]).2
  = ["item_0,0_0"; "item_0,1_1"; "item_1,0_2"].
Proof. reflexivity. Qed.

(** The id of an item is reported and stays in the catalogue also when
    the creation that entered it raised. *)
Example orphan_ids_ex :
  item_ids_added
    (lifetime keyed_env "N5" kind_oracle
       [(careless_oracle, "go north"); (kind_oracle, "go north")]).2
  = ["item_0,0_0"; "item_0,1_1"; "item_0,1_2"].
Proof. reflexivity. Qed.
